(** * DbView.jsx: the polling table viewer and its root shell

    A shallow embedding of [src/frontend/src/pages/DbView.jsx]:

    - the five [useState] cells of [SupabaseTableViewer] as a record,
    - [fetchData] split at its single [await] into the part that runs when
      the call is made and the part that runs when the request settles,
    - the [useEffect] body with its cleanup closure, run against a small
      model of the browser's interval table and a millisecond clock,
    - the render logic as a function from the state cells to a view tree,
    - [App], the root shell, as a function of the two environment values.

    Values stored in table rows are kept abstract, and so is
    [JSON.stringify], which is a built-in of the language and not code of
    this file. *)

From Stdlib Require Import String Ascii List ZArith Bool Lia Arith.
Import ListNotations.
Local Open Scope string_scope.
Local Open Scope list_scope.
Local Open Scope Z_scope.

Set Implicit Arguments.

(* ================================================================= *)
(** ** JavaScript strings *)

Module Js.

(** Truthiness of a value that is either [null]/[undefined] or a string:
    only a non-empty string is truthy. *)
Definition truthy_string (v : option string) : bool :=
  match v with
  | Some (String _ _) => true
  | _ => false
  end.

(** [a || b] where [a] is a string or [undefined] and [b] is a string. *)
Definition or_string (a : option string) (b : string) : string :=
  match a with
  | Some (String c s) => String c s
  | _ => b
  end.

Fixpoint drop (n : nat) (s : string) : string :=
  match n, s with
  | O, _ => s
  | S n', String _ s' => drop n' s'
  | S _, EmptyString => EmptyString
  end.

(** [s.replace(pat, rep)] with a string pattern: only the first
    occurrence of [pat] is replaced. *)
Fixpoint replace (pat rep s : string) : string :=
  if String.prefix pat s then (rep ++ drop (String.length pat) s)%string
  else match s with
       | EmptyString => EmptyString
       | String c s' => String c (replace pat rep s')
       end.

(** Every occurrence of the character [a] replaced by [b]; this is the
    display rule as the specification words it. *)
Fixpoint replace_every (a b : ascii) (s : string) : string :=
  match s with
  | EmptyString => EmptyString
  | String c s' =>
      String (if Ascii.eqb c a then b else c) (replace_every a b s')
  end.

Fixpoint count_char (a : ascii) (s : string) : nat :=
  match s with
  | EmptyString => O
  | String c s' => ((if Ascii.eqb c a then 1 else 0) + count_char a s')%nat
  end.

End Js.

(* ================================================================= *)
(** ** Sample data

    Rows whose values are plain strings, for the worked examples. *)

Module Sample.

(** [JSON.stringify] on a string whose characters need no escaping: the
    string between double quotes. *)
Definition stringify (s : string) : string :=
  String "034" (s ++ String "034" EmptyString)%string.

(** The row [{ uuid: "a", status: "open" }]. *)
Definition ticket_a : list (string * string) :=
  [("uuid", "a"); ("status", "open")].

(** Leading white space dropped and letters of the alphabet lowered, as
    far as the test of the scheme below needs them. *)
Definition is_space (c : ascii) : bool :=
  let n := nat_of_ascii c in
  (Nat.leb 9 n && Nat.leb n 13) || Nat.eqb n 32.

Fixpoint drop_spaces (s : string) : string :=
  match s with
  | String c s' => if is_space c then drop_spaces s' else s
  | EmptyString => EmptyString
  end.

Definition lower (c : ascii) : ascii :=
  let n := nat_of_ascii c in
  if Nat.leb 65 n && Nat.leb n 90 then ascii_of_nat (n + 32) else c.

Fixpoint lowercase (s : string) : string :=
  match s with
  | String c s' => String (lower c) (lowercase s')
  | EmptyString => EmptyString
  end.

(** A stand-in for the client constructor in the worked examples.  Like
    the client library it throws when the URL or the key is missing or
    empty and when the URL does not begin with http:// or https://; the
    rest of the URL is not looked at. *)
Definition client_accepts (url key : option string) : bool :=
  match url, key with
  | Some u, Some (String _ _) =>
      String.prefix "http://" (lowercase (drop_spaces u))
      || String.prefix "https://" (lowercase (drop_spaces u))
  | _, _ => false
  end.

(** A row with a column name of three words. *)
Definition ticket_b : list (string * string) :=
  [("uuid", "b"); ("created_at_utc", "2024-01-01")].

End Sample.

(* ================================================================= *)
(** ** Rows, responses and errors *)

Section Viewer.

(** A JSON-compatible value as the table returns it. *)
Variable Value : Type.

(** The built-in [JSON.stringify]. *)
Variable JSON_stringify : Value -> string.

(** A row: the entries of the object in [Object.entries] order. *)
Definition Row : Type := list (string * Value).

Fixpoint get_field (k : string) (r : Row) : option Value :=
  match r with
  | [] => None
  | (k', v) :: r' => if String.eqb k k' then Some v else get_field k r'
  end.

(** An error object; [message] may be missing. *)
Record JsError : Type := mkError { message : option string }.

(** What [await supabase.from(tableName).select('*')] resolves to:
    [{ data, error }], either of which may be [null]. *)
Record Response : Type := mkResponse {
  resp_data : option (list Row);
  resp_error : option JsError
}.

(** The [await] either yields a response or throws. *)
Inductive Awaited : Type :=
| Fulfilled (r : Response)
| Thrown (e : JsError).

(** A select that returned [rows] and no error. *)
Definition succeeded (rows : option (list Row)) : Awaited :=
  Fulfilled (mkResponse rows None).

(* --------------------------------------------------------------- *)
(** ** Component state: the five [useState] cells *)

Record ViewerState : Type := mkState {
  data : option (list Row);      (* [None] stands for null/undefined *)
  loading : bool;
  isRefreshing : bool;
  error : option string;
  lastUpdated : option Z
}.

(** The initial values passed to [useState]. *)
Definition initial_state : ViewerState :=
  {| data := Some []; loading := true; isRefreshing := false;
     error := None; lastUpdated := None |}.

Definition setData (v : option (list Row)) (s : ViewerState) :=
  {| data := v; loading := loading s; isRefreshing := isRefreshing s;
     error := error s; lastUpdated := lastUpdated s |}.
Definition setLoading (v : bool) (s : ViewerState) :=
  {| data := data s; loading := v; isRefreshing := isRefreshing s;
     error := error s; lastUpdated := lastUpdated s |}.
Definition setIsRefreshing (v : bool) (s : ViewerState) :=
  {| data := data s; loading := loading s; isRefreshing := v;
     error := error s; lastUpdated := lastUpdated s |}.
Definition setError (v : option string) (s : ViewerState) :=
  {| data := data s; loading := loading s; isRefreshing := isRefreshing s;
     error := v; lastUpdated := lastUpdated s |}.
Definition setLastUpdated (v : option Z) (s : ViewerState) :=
  {| data := data s; loading := loading s; isRefreshing := isRefreshing s;
     error := error s; lastUpdated := v |}.

(* --------------------------------------------------------------- *)
(** ** [fetchData] *)

Definition unknown_error : string :=
  "An unknown error occurred during refresh.".

(** [records || []]: an array, even an empty one, is truthy. *)
Definition records_or_empty (records : option (list Row)) : list Row :=
  match records with
  | Some rows => rows
  | None => []
  end.

(** [err.message || 'An unknown error occurred during refresh.'] *)
Definition message_or_default (err : JsError) : string :=
  Js.or_string (message err) unknown_error.

(** The code before the [await]: [setIsRefreshing(true)]. *)
Definition fetchData_begin (s : ViewerState) : ViewerState :=
  setIsRefreshing true s.

(** The statements of the [try] block after the [await], up to the
    point where control either falls out of the block with the
    records or is thrown to [catch]. *)
Definition try_block (a : Awaited) : option (list Row) + JsError :=
  match a with
  | Thrown e => inr e
  | Fulfilled r =>
      match resp_error r with
      | Some fetchError => inr fetchError
      | None => inl (resp_data r)
      end
  end.

(** The code after the [await]: rest of [try], then [catch], then
    [finally].  [now] is the value of [new Date()]. *)
Definition fetchData_settle (a : Awaited) (now : Z) (s : ViewerState)
  : ViewerState :=
  let s1 :=
    match try_block a with
    | inl records =>
        setError None
          (setLastUpdated (Some now)
             (setData (Some (records_or_empty records)) s))
    | inr err => setError (Some (message_or_default err)) s
    end in
  setIsRefreshing false (setLoading false s1).

(* --------------------------------------------------------------- *)
(** ** Render logic *)

Record FieldView : Type := mkField {
  field_key : string;        (* React key *)
  field_label : string;      (* text of the <strong>, before the colon *)
  field_value : string       (* text of the <span> *)
}.

Record ItemView : Type := mkItem {
  item_key : option Value;   (* [record.uuid] *)
  item_fields : list FieldView
}.

Inductive View : Type :=
| LoadingView (table : string)
| ErrorPanel (table : string) (err : string)
| EmptyView (table : string)
| ListView (table : string)
           (refreshing : bool)
           (updated : option Z)
           (banner : option string)
           (items : list ItemView).

(** The fixed texts of the four views, with their interpolations. *)
Definition loading_message (table : string) : string :=
  ("Loading data from '" ++ table ++ "'...")%string.
Definition panel_message (table : string) : string :=
  ("Could not fetch data from the '" ++ table ++ "' table.")%string.
Definition empty_message (table : string) : string :=
  ("No records found in the '" ++ table ++ "' table.")%string.
Definition banner_message (err : string) : string :=
  ("Failed to refresh data. Showing last known records. Error: "
     ++ err)%string.
Definition field_line (f : FieldView) : string :=
  (field_label f ++ ": " ++ field_value f)%string.

(** The messages a view puts on screen, top to bottom; the formatted
    time of the last update is left out. *)
Definition messages (v : View) : list string :=
  match v with
  | LoadingView table => [loading_message table]
  | ErrorPanel table err =>
      ["Oops! An Error Occurred"; panel_message table; err]
  | EmptyView table => [empty_message table]
  | ListView table _ _ banner items =>
      [(table ++ " Records")%string]
      ++ match banner with
         | Some err => [banner_message err]
         | None => []
         end
      ++ concat (map (fun it => map field_line (item_fields it)) items)
  end.

Definition render_field (kv : string * Value) : FieldView :=
  {| field_key := fst kv;
     field_label := Js.replace "_" " " (fst kv);
     field_value := JSON_stringify (snd kv) |}.

Definition render_item (record : Row) : ItemView :=
  {| item_key := get_field "uuid" record;
     item_fields := map render_field record |}.

(** [error && <div>...{error}</div>] *)
Definition render_banner (e : option string) : option string :=
  if Js.truthy_string e then e else None.

Definition list_view (tableName : string) (s : ViewerState)
    (rows : list Row) : View :=
  ListView tableName (isRefreshing s) (lastUpdated s)
    (render_banner (error s)) (map render_item rows).

(** [{error}] inside the panel; only reached when [error] is truthy. *)
Definition error_text (e : option string) : string :=
  match e with
  | Some m => m
  | None => EmptyString
  end.

(** The body of [SupabaseTableViewer] after the hooks.  Reading
    [data.length] when [data] is null or undefined raises a TypeError,
    which is the [None] result here. *)
Definition render (tableName : string) (s : ViewerState) : option View :=
  if loading s then Some (LoadingView tableName)
  else if Js.truthy_string (error s) then
    match data s with
    | None => None
    | Some [] => Some (ErrorPanel tableName (error_text (error s)))
    | Some rows => Some (list_view tableName s rows)
    end
  else
    match data s with
    | None => None
    | Some [] => Some (EmptyView tableName)
    | Some rows => Some (list_view tableName s rows)
    end.

(* --------------------------------------------------------------- *)
(** ** The mounted component in its environment

    The environment is a millisecond clock, the browser's table of
    armed intervals, and the selects that have been issued and have not
    settled yet. *)

Record Props : Type := mkProps {
  tableName : string;
  pollInterval : Z
}.

Definition props_eqb (p q : Props) : bool :=
  String.eqb (tableName p) (tableName q)
  && Z.eqb (pollInterval p) (pollInterval q).

(** An armed interval whose callback is [fetchData] closed over
    [iv_table]. *)
Record Interval : Type := mkInterval {
  iv_id : nat;
  iv_table : string;
  iv_period : Z;
  iv_due : Z
}.

(** One call of [supabase.from(table).select('*')]. *)
Record Request : Type := mkRequest {
  req_table : string;
  req_at : Z
}.

Record World : Type := mkWorld {
  view : ViewerState;
  props : Props;
  mounted : bool;
  cleanup : option nat;        (* the closure returned by the effect *)
  clock : Z;
  intervals : list Interval;
  next_id : nat;
  pending : list Request;      (* in flight, oldest first *)
  issued : list Request        (* every select made so far, oldest first *)
}.

Definition with_view (v : ViewerState) (w : World) : World :=
  mkWorld v (props w) (mounted w) (cleanup w) (clock w) (intervals w)
    (next_id w) (pending w) (issued w).
Definition with_props (p : Props) (w : World) : World :=
  mkWorld (view w) p (mounted w) (cleanup w) (clock w) (intervals w)
    (next_id w) (pending w) (issued w).
Definition with_mounted (b : bool) (w : World) : World :=
  mkWorld (view w) (props w) b (cleanup w) (clock w) (intervals w)
    (next_id w) (pending w) (issued w).
Definition with_cleanup (c : option nat) (w : World) : World :=
  mkWorld (view w) (props w) (mounted w) c (clock w) (intervals w)
    (next_id w) (pending w) (issued w).
Definition with_clock (t : Z) (w : World) : World :=
  mkWorld (view w) (props w) (mounted w) (cleanup w) t (intervals w)
    (next_id w) (pending w) (issued w).
Definition with_intervals (l : list Interval) (w : World) : World :=
  mkWorld (view w) (props w) (mounted w) (cleanup w) (clock w) l
    (next_id w) (pending w) (issued w).
Definition with_pending (l : list Request) (w : World) : World :=
  mkWorld (view w) (props w) (mounted w) (cleanup w) (clock w)
    (intervals w) (next_id w) l (issued w).

(** A state setter called on a component that is no longer mounted has
    no effect. *)
Definition update_view (f : ViewerState -> ViewerState) (w : World)
  : World :=
  if mounted w then with_view (f (view w)) w else w.

(** A call of [fetchData] for [table], up to its [await]. *)
Definition fetchData (table : string) (w : World) : World :=
  let w1 := update_view fetchData_begin w in
  let rq := mkRequest table (clock w) in
  mkWorld (view w1) (props w1) (mounted w1) (cleanup w1) (clock w1)
    (intervals w1) (next_id w1) (pending w1 ++ [rq]) (issued w1 ++ [rq]).

(** The largest delay a timer honours: the timer API takes its delay as
    a 32-bit signed integer. *)
Definition TIMEOUT_MAX : Z := 2147483647.

(** The period of an interval armed with [delay]: the delay itself when
    it lies between 1 and [TIMEOUT_MAX]; any other delay is not
    honoured, and the callback then runs as often as the clock allows,
    which here is once a millisecond. *)
Definition timer_period (delay : Z) : Z :=
  if Z.leb 1 delay && Z.leb delay TIMEOUT_MAX then delay else 1.

Arguments timer_period : simpl never.

(** [setInterval(fetchData, delay)]: returns the new id. *)
Definition setInterval (table : string) (delay : Z) (w : World)
  : nat * World :=
  let period := timer_period delay in
  let iv := mkInterval (next_id w) table period (clock w + period) in
  (next_id w,
   mkWorld (view w) (props w) (mounted w) (cleanup w) (clock w)
     (intervals w ++ [iv]) (S (next_id w)) (pending w) (issued w)).

Definition clearInterval (id : nat) (w : World) : World :=
  with_intervals
    (filter (fun iv => negb (Nat.eqb (iv_id iv) id)) (intervals w)) w.

(** [pollInterval && pollInterval > 0] *)
Definition wants_timer (pollInterval : Z) : bool :=
  negb (Z.eqb pollInterval 0) && Z.ltb 0 pollInterval.

(** The body of the [useEffect] callback; the closure it returns is
    kept in [cleanup]. *)
Definition effect (w : World) : World :=
  let w1 := fetchData (tableName (props w)) w in
  if wants_timer (pollInterval (props w)) then
    let (intervalId, w2) :=
      setInterval (tableName (props w)) (pollInterval (props w)) w1 in
    with_cleanup (Some intervalId) w2
  else with_cleanup None w1.

(** Running the closure returned by the last run of the effect. *)
Definition run_cleanup (w : World) : World :=
  match cleanup w with
  | Some intervalId => with_cleanup None (clearInterval intervalId w)
  | None => w
  end.

(** First render and first run of the effect, at time 0. *)
Definition mount (p : Props) : World :=
  effect
    (mkWorld initial_state p true None 0 [] 1%nat [] []).

(** A render with props [p]: the effect runs again, after the previous
    cleanup, only when one of its dependencies changed.  [fetchData]
    itself changes exactly when [tableName] does. *)
Definition rerender (p : Props) (w : World) : World :=
  if props_eqb (props w) p then w
  else effect (with_props p (run_cleanup w)).

Definition unmount (w : World) : World :=
  with_mounted false (run_cleanup w).

Definition reschedule (id : nat) (l : list Interval) : list Interval :=
  map (fun iv =>
         if Nat.eqb (iv_id iv) id
         then mkInterval (iv_id iv) (iv_table iv) (iv_period iv)
                (iv_due iv + iv_period iv)
         else iv) l.

(** Fire one interval if it is due. *)
Definition fire (w : World) (iv : Interval) : World :=
  if Z.leb (iv_due iv) (clock w)
  then fetchData (iv_table iv)
         (with_intervals (reschedule (iv_id iv) (intervals w)) w)
  else w.

(** One millisecond passes; every interval that has become due fires. *)
Definition tick (w : World) : World :=
  let w1 := with_clock (clock w + 1) w in
  fold_left fire (intervals w1) w1.

Definition remove_nth {A : Type} (i : nat) (l : list A) : list A :=
  firstn i l ++ skipn (S i) l.

(** The [i]-th in-flight select settles with [a]. *)
Definition settle (i : nat) (a : Awaited) (w : World) : World :=
  update_view (fetchData_settle a (clock w))
    (with_pending (remove_nth i (pending w)) w).

Inductive Event : Type :=
| Tick
| Settle (i : nat) (a : Awaited)
| Rerender (p : Props)
| Unmount.

Definition step (e : Event) (w : World) : option World :=
  match e with
  | Tick => Some (tick w)
  | Settle i a =>
      match nth_error (pending w) i with
      | Some _ => Some (settle i a w)
      | None => None
      end
  | Rerender p => if mounted w then Some (rerender p w) else None
  | Unmount => if mounted w then Some (unmount w) else None
  end.

Fixpoint run (evs : list Event) (w : World) : option World :=
  match evs with
  | [] => Some w
  | e :: evs' =>
      match step e w with
      | Some w' => run evs' w'
      | None => None
      end
  end.

(** What the mounted component shows. *)
Definition screen (w : World) : option View :=
  render (tableName (props w)) (view w).

(* --------------------------------------------------------------- *)
(** ** The root shell *)

(** [import.meta.env]: either value may be undefined. *)
Record Env : Type := mkEnv {
  VITE_SUPABASE_URL : option string;
  VITE_SUPABASE_KEY : option string
}.

Definition url_placeholder : string := "YOUR_SUPABASE_URL".
Definition key_placeholder : string := "YOUR_SUPABASE_ANON_KEY".

Definition myTableName : string := "tickets".
Definition refreshInterval : Z := 5000.

(** [supabaseUrl === 'YOUR_SUPABASE_URL'] *)
Definition strict_eq_string (v : option string) (lit : string) : bool :=
  match v with
  | Some s => String.eqb s lit
  | None => false
  end.

(** The contents of [<main>] in [App]. *)
Inductive Main : Type :=
| ConfigurationNeeded
| TableViewer (p : Props).

Definition App (env : Env) : Main :=
  if strict_eq_string (VITE_SUPABASE_URL env) url_placeholder
  then ConfigurationNeeded
  else TableViewer (mkProps myTableName refreshInterval).

(** [createClient(supabaseUrl, supabaseAnonKey)] runs at module scope,
    before anything is rendered.  It is a call into the client library;
    whether it returns or throws for given values is the library's
    business, so it is a parameter here. *)
Variable createClient_returns : option string -> option string -> bool.

(** The page: nothing at all when the module failed to load, the static
    panel, on which nothing ever happens, or the mounted viewer in its
    environment. *)
Inductive Page : Type :=
| NotLoaded
| Panel
| Running (w : World).

Definition boot (env : Env) : Page :=
  if createClient_returns (VITE_SUPABASE_URL env) (VITE_SUPABASE_KEY env)
  then match App env with
       | ConfigurationNeeded => Panel
       | TableViewer p => Running (mount p)
       end
  else NotLoaded.

(** No component is mounted behind the panel, so only time can pass. *)
Definition page_step (e : Event) (pg : Page) : option Page :=
  match pg with
  | NotLoaded => match e with Tick => Some NotLoaded | _ => None end
  | Panel => match e with Tick => Some Panel | _ => None end
  | Running w => option_map Running (step e w)
  end.

Fixpoint page_run (evs : list Event) (pg : Page) : option Page :=
  match evs with
  | [] => Some pg
  | e :: evs' =>
      match page_step e pg with
      | Some pg' => page_run evs' pg'
      | None => None
      end
  end.

Definition page_issued (pg : Page) : list Request :=
  match pg with
  | NotLoaded => []
  | Panel => []
  | Running w => issued w
  end.

(* --------------------------------------------------------------- *)
(** ** Reading a history of events

    These functions look only at the list of events, never at the
    component; the theorems below compare them with the state cells. *)

(** The error a settled select carries, if it failed. *)
Definition failure_of (a : Awaited) : option JsError :=
  match a with
  | Thrown e => Some e
  | Fulfilled r => resp_error r
  end.

Definition failed (a : Awaited) : bool :=
  match failure_of a with Some _ => true | None => false end.

(** Time and rows of the most recent select that settled without a
    failure, scanning [evs] from time [t]. *)
Fixpoint latest_success (t : Z) (acc : option (Z * list Row))
    (evs : list Event) : option (Z * list Row) :=
  match evs with
  | [] => acc
  | Tick :: evs' => latest_success (t + 1) acc evs'
  | Settle _ a :: evs' =>
      match a with
      | Fulfilled (mkResponse rows None) =>
          latest_success t (Some (t, records_or_empty rows)) evs'
      | _ => latest_success t acc evs'
      end
  | _ :: evs' => latest_success t acc evs'
  end.

Definition payload (r : option (Z * list Row)) : list Row :=
  match r with
  | Some (_, rows) => rows
  | None => []
  end.

(** The outcome of the most recent select that settled. *)
Fixpoint last_settled (acc : option Awaited) (evs : list Event)
  : option Awaited :=
  match evs with
  | [] => acc
  | Settle _ a :: evs' => last_settled (Some a) evs'
  | _ :: evs' => last_settled acc evs'
  end.

Definition last_settled_failed (evs : list Event) : bool :=
  match last_settled None evs with
  | Some a => failed a
  | None => false
  end.

Fixpoint settled_count (evs : list Event) : nat :=
  match evs with
  | [] => O
  | Settle _ _ :: evs' => S (settled_count evs')
  | _ :: evs' => settled_count evs'
  end.

(** The largest number of selects in flight at once while [evs] runs
    from [w]. *)
Fixpoint max_in_flight (evs : list Event) (w : World) : nat :=
  match evs with
  | [] => List.length (pending w)
  | e :: evs' =>
      match step e w with
      | Some w' => Nat.max (List.length (pending w)) (max_in_flight evs' w')
      | None => List.length (pending w)
      end
  end.

(** The props stay what they are: every render passes [p] again. *)
Fixpoint same_params (p : Props) (evs : list Event) : bool :=
  match evs with
  | [] => true
  | Rerender q :: evs' => props_eqb p q && same_params p evs'
  | _ :: evs' => same_params p evs'
  end.

(** The four cells a call of [fetchData] leaves alone until it settles. *)
Definition quiet (s s' : ViewerState) : Prop :=
  data s' = data s /\ loading s' = loading s /\
  error s' = error s /\ lastUpdated s' = lastUpdated s.

(* --------------------------------------------------------------- *)
(** ** Invariants and reference behaviour *)

(** The cell [error] after the most recent settled select [last]. *)
Definition error_after (last : option Awaited) : option string :=
  match last with
  | Some a => option_map message_or_default (failure_of a)
  | None => None
  end.

(** In every world reached from a mount, mounted or not, [data] holds
    an array and [error] is null or a non-empty string. *)
Definition cells_ok (s : ViewerState) : Prop :=
  (exists rows, data s = Some rows) /\
  (error s = None \/ Js.truthy_string (error s) = true).

(** The table holds exactly the interval the pending cleanup closure
    will clear, and nothing once the component is gone. *)
Definition timer_inv (w : World) : Prop :=
  map iv_id (intervals w) =
    match cleanup w with Some id => [id] | None => [] end /\
  (mounted w = false -> cleanup w = None).

(** The selects a timer of the given period has issued by time [t]:
    one at every multiple of the period, starting with the one made
    when the effect ran. *)
Definition poll_times (table : string) (period t : Z) : list Request :=
  map (fun k => mkRequest table (Z.of_nat k * period))
      (seq 0 (S (Z.to_nat (t / period)))).

(** A mounted component with props [p] whose timer is armed and on
    schedule. *)
Definition polling (p : Props) (w : World) : Prop :=
  props w = p /\ mounted w = true /\ 0 <= clock w /\
  cleanup w = Some 1%nat /\
  intervals w =
    [mkInterval 1 (tableName p) (pollInterval p)
       ((clock w / pollInterval p + 1) * pollInterval p)] /\
  issued w = poll_times (tableName p) (pollInterval p) (clock w).

(** Without a timer: one select, made when the effect ran. *)
Definition idle (p : Props) (w : World) : Prop :=
  props w = p /\ intervals w = [] /\ cleanup w = None /\
  issued w = [mkRequest (tableName p) 0].

(** Between two settles the list of selects in flight only grows, and
    whenever it grows the flag is switched on. *)
Definition grows (w w' : World) : Prop :=
  (pending w' = pending w /\ view w' = view w) \/
  (pending w' <> [] /\ (mounted w = true -> isRefreshing (view w') = true)).

(** The refresh flag is on exactly when a select is in flight. *)
Definition flag_agrees (w : World) : Prop :=
  isRefreshing (view w) = true <-> pending w <> [].

(** The view the rendering policy selects once a select has settled. *)
Definition selected_view (table : string) (rows : list Row)
    (err : option string) (flag : bool) (updated : option Z) : View :=
  match rows, err with
  | [], Some e => ErrorPanel table e
  | [], None => EmptyView table
  | _ :: _, _ => ListView table flag updated err (map render_item rows)
  end.

(** [ms] milliseconds going by. *)
Definition wait (ms : Z) : list Event := repeat Tick (Z.to_nat ms).

(** The props [App] passes to the viewer. *)
Definition app_props : Props := mkProps myTableName refreshInterval.

(** The first select returns [rows]; the poll made five seconds later
    fails. *)
Definition history_stale (rows : list Row) : list Event :=
  [Settle 0 (succeeded (Some rows))] ++ wait 5000 ++
  [Settle 0 (Thrown (mkError (Some "Failed to fetch")))].

(** The first select returns [rows]; the poll made at five seconds is
    still in flight when the next one is made at ten seconds, and then
    settles. *)
Definition history_overlap (rows : list Row) : list Event :=
  [Settle 0 (succeeded (Some rows))] ++ wait 10000 ++
  [Settle 0 (succeeded (Some rows))].

(** The first select fails with an error whose message is empty. *)
Definition history_silent_failure : list Event :=
  [Settle 0 (Thrown (mkError (Some EmptyString)))].

(** The component is unmounted one second after the mount. *)
Definition history_unmounted_early : list Event :=
  wait 1000 ++ [Unmount].

(** The world after [evs], from a fresh mount with props [p]. *)
Definition after (p : Props) (evs : list Event) : World :=
  match run evs (mount p) with
  | Some w => w
  | None => mount p
  end.

(** The selects a timer of the given period, armed at time [t0], has
    issued by time [t], counting the one made when the effect ran. *)
Definition polls_since (table : string) (period t0 t : Z) : list Request :=
  map (fun k => mkRequest table (t0 + Z.of_nat k * period))
      (seq 0 (S (Z.to_nat ((t - t0) / period)))).

(** A mounted component with props [q] whose timer, armed at time [t0]
    under the id [id], is on schedule; [log] is what had been issued
    before the effect ran. *)
Definition polling_from (t0 : Z) (id : nat) (log : list Request)
    (q : Props) (w : World) : Prop :=
  props w = q /\ mounted w = true /\ t0 <= clock w /\
  cleanup w = Some id /\
  intervals w =
    [mkInterval id (tableName q) (pollInterval q)
       (t0 + ((clock w - t0) / pollInterval q + 1) * pollInterval q)] /\
  issued w = log ++ polls_since (tableName q) (pollInterval q) t0 (clock w).

(** The interval table and the current props agree: no interval when
    the component is gone or its poll interval is not positive, and
    otherwise the one interval the cleanup closure holds, for the
    current table and with the period the timer gives the current poll
    interval, due within one period from now. *)
Definition timer_ok (w : World) : Prop :=
  match intervals w with
  | [] =>
      cleanup w = None /\
      (mounted w = true -> pollInterval (props w) <= 0)
  | [iv] =>
      cleanup w = Some (iv_id iv) /\ mounted w = true /\
      0 < pollInterval (props w) /\
      iv_table iv = tableName (props w) /\
      iv_period iv = timer_period (pollInterval (props w)) /\
      clock w < iv_due iv <= clock w + iv_period iv
  | _ => False
  end.

(** No timer is armed for props [q], and [log] is all that has been
    issued. *)
Definition idle_with (log : list Request) (q : Props) (w : World)
  : Prop :=
  props w = q /\ intervals w = [] /\ cleanup w = None /\ issued w = log.

(** The refresh flag is on only while a select is in flight. *)
Definition flag_sound (w : World) : Prop :=
  isRefreshing (view w) = true -> pending w <> [].

(** The time of the last update lies between the mount and now, and
    while there is none the snapshot is empty. *)
Definition dated (w : World) : Prop :=
  0 <= clock w /\
  (lastUpdated (view w) = None -> data (view w) = Some []) /\
  (forall t, lastUpdated (view w) = Some t -> 0 <= t <= clock w).

(* --------------------------------------------------------------- *)
(** ** Basic facts about the operations *)

Lemma quiet_refl : forall s, quiet s s.
Proof. intros s; repeat split. Qed.

Lemma quiet_trans : forall s1 s2 s3, quiet s1 s2 -> quiet s2 s3 -> quiet s1 s3.
Proof.
  unfold quiet; intros s1 s2 s3 (A & B & C & D) (A' & B' & C' & D').
  repeat split; congruence.
Qed.

Lemma fetchData_frame : forall table w,
    mounted (fetchData table w) = mounted w /\
    props (fetchData table w) = props w /\
    cleanup (fetchData table w) = cleanup w /\
    clock (fetchData table w) = clock w /\
    intervals (fetchData table w) = intervals w /\
    next_id (fetchData table w) = next_id w /\
    quiet (view w) (view (fetchData table w)).
Proof.
  intros table w; unfold fetchData, update_view.
  destruct (mounted w) eqn:M; simpl; rewrite ?M;
    repeat split; reflexivity.
Qed.

Lemma fetchData_logs : forall table w,
    pending (fetchData table w) = pending w ++ [mkRequest table (clock w)] /\
    issued (fetchData table w) = issued w ++ [mkRequest table (clock w)].
Proof.
  intros table w; unfold fetchData, update_view.
  destruct (mounted w); split; reflexivity.
Qed.

Lemma fetchData_flag : forall table w,
    mounted w = true -> isRefreshing (view (fetchData table w)) = true.
Proof.
  intros table w M; unfold fetchData, update_view; rewrite M; reflexivity.
Qed.

Lemma fire_frame : forall w iv,
    mounted (fire w iv) = mounted w /\
    props (fire w iv) = props w /\
    cleanup (fire w iv) = cleanup w /\
    clock (fire w iv) = clock w /\
    next_id (fire w iv) = next_id w /\
    quiet (view w) (view (fire w iv)).
Proof.
  intros w iv; unfold fire.
  destruct (iv_due iv <=? clock w).
  - destruct (fetchData_frame (iv_table iv)
                (with_intervals (reschedule (iv_id iv) (intervals w)) w))
      as (A & B & C & D & _ & F & G).
    repeat split; try assumption; apply G.
  - repeat split.
Qed.

Lemma fold_fire_frame : forall l w,
    mounted (fold_left fire l w) = mounted w /\
    props (fold_left fire l w) = props w /\
    cleanup (fold_left fire l w) = cleanup w /\
    clock (fold_left fire l w) = clock w /\
    next_id (fold_left fire l w) = next_id w /\
    quiet (view w) (view (fold_left fire l w)).
Proof.
  induction l as [|iv l IH]; intros w; simpl.
  - repeat split.
  - destruct (IH (fire w iv)) as (A & B & C & D & E & F).
    destruct (fire_frame w iv) as (A' & B' & C' & D' & E' & F').
    repeat split; try congruence.
    + destruct F as (F1 & _), F' as (F1' & _); congruence.
    + destruct F as (_ & F2 & _), F' as (_ & F2' & _); congruence.
    + destruct F as (_ & _ & F3 & _), F' as (_ & _ & F3' & _); congruence.
    + destruct F as (_ & _ & _ & F4), F' as (_ & _ & _ & F4'); congruence.
Qed.

Lemma tick_frame : forall w,
    mounted (tick w) = mounted w /\
    props (tick w) = props w /\
    cleanup (tick w) = cleanup w /\
    clock (tick w) = clock w + 1 /\
    next_id (tick w) = next_id w /\
    quiet (view w) (view (tick w)).
Proof.
  intros w; unfold tick.
  destruct (fold_fire_frame (intervals (with_clock (clock w + 1) w))
              (with_clock (clock w + 1) w)) as (A & B & C & D & E & F).
  repeat split; try assumption; apply F.
Qed.

Lemma run_cleanup_frame : forall w,
    mounted (run_cleanup w) = mounted w /\
    props (run_cleanup w) = props w /\
    clock (run_cleanup w) = clock w /\
    view (run_cleanup w) = view w /\
    pending (run_cleanup w) = pending w /\
    issued (run_cleanup w) = issued w /\
    next_id (run_cleanup w) = next_id w.
Proof.
  intros w; unfold run_cleanup.
  destruct (cleanup w); repeat split.
Qed.

Lemma effect_frame : forall w,
    mounted (effect w) = mounted w /\
    props (effect w) = props w /\
    clock (effect w) = clock w /\
    quiet (view w) (view (effect w)).
Proof.
  intros w; unfold effect.
  destruct (fetchData_frame (tableName (props w)) w)
    as (A & B & C & D & E & F & G).
  destruct (wants_timer (pollInterval (props w))); simpl;
    repeat split; try assumption; apply G.
Qed.

Lemma rerender_frame : forall p w,
    mounted (rerender p w) = mounted w /\
    clock (rerender p w) = clock w /\
    quiet (view w) (view (rerender p w)).
Proof.
  intros p w; unfold rerender.
  destruct (props_eqb (props w) p).
  - repeat split.
  - destruct (effect_frame (with_props p (run_cleanup w))) as (A & B & C & D).
    destruct (run_cleanup_frame w) as (A' & B' & C' & D' & _).
    simpl in *. repeat split; try congruence.
    all: unfold quiet in D; rewrite D' in D; apply D.
Qed.

Lemma unmount_frame : forall w,
    mounted (unmount w) = false /\
    clock (unmount w) = clock w /\
    view (unmount w) = view w.
Proof.
  intros w; unfold unmount.
  destruct (run_cleanup_frame w) as (A & B & C & D & _).
  simpl; auto.
Qed.

Lemma settle_frame : forall i a w,
    mounted (settle i a w) = mounted w /\
    props (settle i a w) = props w /\
    clock (settle i a w) = clock w /\
    cleanup (settle i a w) = cleanup w /\
    intervals (settle i a w) = intervals w /\
    issued (settle i a w) = issued w /\
    pending (settle i a w) = remove_nth i (pending w) /\
    (mounted w = true ->
     view (settle i a w) = fetchData_settle a (clock w) (view w)).
Proof.
  intros i a w; unfold settle, update_view; simpl.
  destruct (mounted w) eqn:M; simpl; rewrite ?M; repeat split; auto.
  discriminate.
Qed.

(** What one event does to the clock and to the state cells of a
    component that is still mounted afterwards. *)
Lemma step_view : forall e w w',
    step e w = Some w' -> mounted w' = true ->
    mounted w = true /\
    clock w' = (match e with Tick => clock w + 1 | _ => clock w end) /\
    match e with
    | Settle _ a => view w' = fetchData_settle a (clock w) (view w)
    | _ => quiet (view w) (view w')
    end.
Proof.
  intros e w w' H M; destruct e as [|i a|p|]; simpl in H.
  - inversion H; subst w'; clear H.
    destruct (tick_frame w) as (A & _ & _ & D & _ & F).
    repeat split; try congruence; apply F.
  - destruct (nth_error (pending w) i); [|discriminate].
    inversion H; subst w'; clear H.
    destruct (settle_frame i a w) as (A & _ & C & _ & _ & _ & _ & V).
    rewrite A in M. auto.
  - destruct (mounted w) eqn:Mw; [|discriminate].
    inversion H; subst w'; clear H.
    destruct (rerender_frame p w) as (A & C & Q). auto.
  - destruct (mounted w); [|discriminate].
    inversion H; subst w'; clear H.
    destruct (unmount_frame w) as (A & _). congruence.
Qed.

Lemma step_view_any : forall e w w',
    step e w = Some w' ->
    (exists a t, view w' = fetchData_settle a t (view w)) \/
    quiet (view w) (view w').
Proof.
  intros e w w' H; destruct e as [|i a|p|]; simpl in H.
  - inversion H; subst w'. right. apply tick_frame.
  - destruct (nth_error (pending w) i); [|discriminate].
    inversion H; subst w'; clear H.
    unfold settle, update_view; simpl.
    destruct (mounted w); simpl.
    + left; eauto.
    + right; apply quiet_refl.
  - destruct (mounted w); [|discriminate].
    inversion H; subst w'. right. apply rerender_frame.
  - destruct (mounted w); [|discriminate].
    inversion H; subst w'. right.
    destruct (unmount_frame w) as (_ & _ & V). rewrite V. apply quiet_refl.
Qed.

Lemma run_mounted : forall evs w w',
    run evs w = Some w' -> mounted w' = true -> mounted w = true.
Proof.
  induction evs as [|e evs IH]; intros w w' H M; simpl in H.
  - congruence.
  - destruct (step e w) as [w1|] eqn:E; [|discriminate].
    apply (step_view e w E). eapply IH; eauto.
Qed.

Lemma run_app : forall evs1 evs2 w,
    run (evs1 ++ evs2) w =
    match run evs1 w with
    | Some w1 => run evs2 w1
    | None => None
    end.
Proof.
  induction evs1 as [|e evs1 IH]; intros evs2 w; simpl.
  - reflexivity.
  - destruct (step e w); [apply IH | reflexivity].
Qed.

Lemma mount_frame : forall p,
    mounted (mount p) = true /\
    props (mount p) = p /\
    clock (mount p) = 0 /\
    view (mount p) = fetchData_begin initial_state.
Proof.
  intros p; unfold mount, effect; simpl.
  destruct (wants_timer (pollInterval p)); repeat split.
Qed.

(** The text [setError] receives in the [catch] block is never empty. *)
Lemma message_or_default_truthy : forall err,
    Js.truthy_string (Some (message_or_default err)) = true.
Proof.
  intros [[[|c m]|]]; reflexivity.
Qed.

(** The state cells of a mounted component, read off the history. *)
Lemma history_cells : forall evs w w' acc last,
    run evs w = Some w' -> mounted w' = true ->
    data (view w) = Some (payload acc) ->
    lastUpdated (view w) = option_map fst acc ->
    error (view w) = error_after last ->
    data (view w') = Some (payload (latest_success (clock w) acc evs)) /\
    lastUpdated (view w') =
      option_map fst (latest_success (clock w) acc evs) /\
    error (view w') = error_after (last_settled last evs) /\
    loading (view w') =
      loading (view w) && Nat.eqb (settled_count evs) 0.
Proof.
  induction evs as [|e evs IH]; intros w w' acc last H M D U E;
    simpl in H.
  - inversion H; subst w'. simpl. rewrite andb_true_r. auto.
  - destruct (step e w) as [w1|] eqn:S1; [|discriminate].
    assert (M1 : mounted w1 = true) by (eapply run_mounted; eauto).
    destruct (step_view e w S1 M1) as (Mw & C & V).
    destruct e as [|i a|q|].
    + destruct V as (V1 & V2 & V3 & V4).
      destruct (IH w1 w' acc last H M) as (A1 & A2 & A3 & A4);
        try congruence.
      simpl. rewrite C in *. repeat split; try assumption. congruence.
    + assert (L : loading (view w1) = false) by (rewrite V; reflexivity).
      destruct a as [[rows [err|]]|err].
      * destruct (IH w1 w' acc (Some (Fulfilled (mkResponse rows (Some err))))
                    H M) as (A1 & A2 & A3 & A4);
          try (rewrite V; simpl; assumption); try (rewrite V; reflexivity).
        simpl. rewrite C in *. rewrite L in A4. rewrite andb_false_r.
        auto.
      * destruct (IH w1 w' (Some (clock w, records_or_empty rows))
                    (Some (Fulfilled (mkResponse rows None))) H M)
          as (A1 & A2 & A3 & A4); try (rewrite V; reflexivity).
        simpl. rewrite C in *. rewrite L in A4. rewrite andb_false_r.
        auto.
      * destruct (IH w1 w' acc (Some (Thrown err)) H M)
          as (A1 & A2 & A3 & A4);
          try (rewrite V; simpl; assumption); try (rewrite V; reflexivity).
        simpl. rewrite C in *. rewrite L in A4. rewrite andb_false_r.
        auto.
    + destruct V as (V1 & V2 & V3 & V4).
      destruct (IH w1 w' acc last H M) as (A1 & A2 & A3 & A4);
        try congruence.
      simpl. rewrite C in *. repeat split; try assumption. congruence.
    + destruct V as (V1 & V2 & V3 & V4).
      destruct (IH w1 w' acc last H M) as (A1 & A2 & A3 & A4);
        try congruence.
      simpl. rewrite C in *. repeat split; try assumption. congruence.
Qed.

(** [history_cells] from the moment of mounting. *)
Lemma history_since_mount : forall p evs w,
    run evs (mount p) = Some w -> mounted w = true ->
    data (view w) = Some (payload (latest_success 0 None evs)) /\
    lastUpdated (view w) = option_map fst (latest_success 0 None evs) /\
    error (view w) = error_after (last_settled None evs) /\
    loading (view w) = Nat.eqb (settled_count evs) 0.
Proof.
  intros p evs w H M.
  destruct (mount_frame p) as (_ & _ & C & V).
  destruct (@history_cells evs (mount p) w None None H M)
    as (A1 & A2 & A3 & A4); try (rewrite V; reflexivity).
  rewrite C in *. rewrite V in A4. simpl in A4. auto.
Qed.

Lemma settle_cells_ok : forall a t s,
    cells_ok s -> cells_ok (fetchData_settle a t s).
Proof.
  intros a t s ((rows & D) & E); unfold fetchData_settle, cells_ok.
  destruct (try_block a) as [records|err]; simpl.
  - split; [eauto | auto].
  - split; [eauto | right; apply message_or_default_truthy].
Qed.

Lemma quiet_cells_ok : forall s s', quiet s s' -> cells_ok s -> cells_ok s'.
Proof.
  intros s s' (A & _ & C & _) ((rows & D) & E); unfold cells_ok.
  rewrite A, C; eauto.
Qed.

Lemma run_cells_ok : forall evs w w',
    run evs w = Some w' -> cells_ok (view w) -> cells_ok (view w').
Proof.
  induction evs as [|e evs IH]; intros w w' H K; simpl in H.
  - inversion H; subst; assumption.
  - destruct (step e w) as [w1|] eqn:S1; [|discriminate].
    apply (IH w1 w' H).
    destruct (step_view_any e w S1) as [(a & t & V)|Q].
    + rewrite V; apply settle_cells_ok; assumption.
    + eapply quiet_cells_ok; eauto.
Qed.

Lemma mount_cells_ok : forall p, cells_ok (view (mount p)).
Proof.
  intros p; destruct (mount_frame p) as (_ & _ & _ & V); rewrite V.
  split; simpl; eauto.
Qed.

Lemma render_total : forall table s,
    cells_ok s -> render table s <> None.
Proof.
  intros table s ((rows & D) & _); unfold render; rewrite D.
  destruct (loading s); [discriminate|].
  destruct (Js.truthy_string (error s)); destruct rows; discriminate.
Qed.

(* --------------------------------------------------------------- *)
(** ** The interval table *)

Lemma reschedule_ids : forall id l,
    map iv_id (reschedule id l) = map iv_id l.
Proof.
  intros id l; unfold reschedule; rewrite map_map.
  apply map_ext; intros iv. destruct (Nat.eqb (iv_id iv) id); reflexivity.
Qed.

Lemma fire_ids : forall w iv,
    map iv_id (intervals (fire w iv)) = map iv_id (intervals w).
Proof.
  intros w iv; unfold fire. destruct (iv_due iv <=? clock w); [|reflexivity].
  destruct (fetchData_frame (iv_table iv)
              (with_intervals (reschedule (iv_id iv) (intervals w)) w))
    as (_ & _ & _ & _ & E & _).
  rewrite E; simpl. apply reschedule_ids.
Qed.

Lemma fold_fire_ids : forall l w,
    map iv_id (intervals (fold_left fire l w)) = map iv_id (intervals w).
Proof.
  induction l as [|iv l IH]; intros w; simpl; [reflexivity|].
  rewrite IH. apply fire_ids.
Qed.

Lemma effect_timer_inv : forall w,
    intervals w = [] -> mounted w = true -> timer_inv (effect w).
Proof.
  intros w I M; unfold timer_inv, effect, fetchData, update_view.
  rewrite M.
  destruct (wants_timer (pollInterval (props w))); simpl;
    rewrite ?I, ?M; simpl; split; congruence.
Qed.

Lemma run_cleanup_clears : forall w,
    timer_inv w ->
    intervals (run_cleanup w) = [] /\ cleanup (run_cleanup w) = None.
Proof.
  intros w (I & _); unfold run_cleanup.
  destruct (cleanup w) as [id|] eqn:C; simpl.
  - destruct (intervals w) as [|iv [|iv' l]]; simpl in *; try discriminate.
    inversion I as [I']. rewrite Nat.eqb_refl. simpl. auto.
  - rewrite C. destruct (intervals w); [auto | discriminate].
Qed.

Lemma step_timer_inv : forall e w w',
    step e w = Some w' -> timer_inv w -> timer_inv w'.
Proof.
  intros e w w' H K; destruct e as [|i a|q|]; simpl in H.
  - inversion H; subst w'; clear H.
    destruct (tick_frame w) as (A & _ & C & _).
    destruct K as (K1 & K2). unfold timer_inv. rewrite A, C.
    split; [|assumption].
    unfold tick. rewrite fold_fire_ids. exact K1.
  - destruct (nth_error (pending w) i); [|discriminate].
    inversion H; subst w'; clear H.
    destruct (settle_frame i a w) as (A & _ & _ & C & I & _).
    unfold timer_inv. rewrite A, C, I. exact K.
  - destruct (mounted w) eqn:M; [|discriminate].
    inversion H; subst w'; clear H. unfold rerender.
    destruct (props_eqb (props w) q); [exact K|].
    destruct (run_cleanup_clears K) as (I & _).
    destruct (run_cleanup_frame w) as (Mc & _).
    apply effect_timer_inv; simpl; congruence.
  - destruct (mounted w) eqn:M; [|discriminate].
    inversion H; subst w'; clear H.
    destruct (run_cleanup_clears K) as (I & C).
    unfold timer_inv, unmount; simpl. rewrite I, C. auto.
Qed.

Lemma mount_timer_inv : forall p, timer_inv (mount p).
Proof. intros p; apply effect_timer_inv; reflexivity. Qed.

Lemma run_timer_inv : forall evs w w',
    run evs w = Some w' -> timer_inv w -> timer_inv w'.
Proof.
  induction evs as [|e evs IH]; intros w w' H K; simpl in H.
  - inversion H; subst; assumption.
  - destruct (step e w) as [w1|] eqn:S1; [|discriminate].
    eapply IH; eauto. eapply step_timer_inv; eauto.
Qed.

Lemma timer_inv_gone : forall w,
    timer_inv w -> mounted w = false -> intervals w = [].
Proof.
  intros w (I & C) M. rewrite (C M) in I.
  destruct (intervals w); [reflexivity | discriminate].
Qed.

(** Once the component is gone and the table is empty, nothing issues
    a select any more. *)
Lemma run_after_unmount : forall evs w w',
    run evs w = Some w' -> mounted w = false -> intervals w = [] ->
    issued w' = issued w /\ intervals w' = [] /\ mounted w' = false.
Proof.
  induction evs as [|e evs IH]; intros w w' H M I; simpl in H.
  - inversion H; subst; auto.
  - destruct e as [|i a|q|]; simpl in H; rewrite ?M in H;
      try discriminate.
    + assert (T : tick w = with_clock (clock w + 1) w)
        by (unfold tick; simpl; rewrite I; reflexivity).
      rewrite T in H.
      destruct (IH _ _ H) as (A & B & C); auto.
    + destruct (nth_error (pending w) i); [|discriminate].
      destruct (settle_frame i a w) as (A & _ & _ & _ & B & C & _).
      destruct (IH _ _ H) as (A' & B' & C'); try congruence.
      repeat split; congruence.
Qed.

(* --------------------------------------------------------------- *)
(** ** The polling schedule *)

Lemma props_eqb_eq : forall p q, props_eqb p q = true -> p = q.
Proof.
  intros [t i] [t' i']; unfold props_eqb; simpl; intros H.
  apply andb_true_iff in H; destruct H as (H1 & H2).
  apply String.eqb_eq in H1; apply Z.eqb_eq in H2; congruence.
Qed.

Lemma props_eqb_refl : forall p, props_eqb p p = true.
Proof.
  intros [t i]; unfold props_eqb; simpl.
  rewrite String.eqb_refl, Z.eqb_refl; reflexivity.
Qed.

Lemma wants_timer_pos : forall i, wants_timer i = true <-> 0 < i.
Proof.
  intros i; unfold wants_timer; rewrite andb_true_iff, negb_true_iff.
  rewrite Z.eqb_neq, Z.ltb_lt. lia.
Qed.

Lemma div_step_hit : forall P c,
    0 < P -> 0 <= c -> (c / P + 1) * P <= c + 1 ->
    (c + 1) / P = c / P + 1 /\ (c / P + 1) * P = c + 1.
Proof.
  intros P c HP Hc H.
  pose proof (Z.div_mod c P ltac:(lia)) as E.
  pose proof (Z.mod_pos_bound c P HP) as B.
  assert (X : (c / P + 1) * P = c + 1) by nia.
  split; [|exact X].
  symmetry; apply Z.div_unique with (r := 0); lia.
Qed.

Lemma div_step_miss : forall P c,
    0 < P -> 0 <= c -> c + 1 < (c / P + 1) * P -> (c + 1) / P = c / P.
Proof.
  intros P c HP Hc H.
  pose proof (Z.div_mod c P ltac:(lia)) as E.
  pose proof (Z.mod_pos_bound c P HP) as B.
  symmetry; apply Z.div_unique with (r := c mod P + 1); nia.
Qed.

Lemma timer_period_in_range : forall delay,
    1 <= delay <= TIMEOUT_MAX -> timer_period delay = delay.
Proof.
  intros delay (L & U); unfold timer_period.
  destruct (Z.leb_spec 1 delay); [|lia].
  destruct (Z.leb_spec delay TIMEOUT_MAX); [reflexivity | lia].
Qed.

Lemma timer_period_out_of_range : forall delay,
    delay < 1 \/ TIMEOUT_MAX < delay -> timer_period delay = 1.
Proof.
  intros delay H; unfold timer_period.
  destruct (Z.leb_spec 1 delay); [|reflexivity].
  destruct (Z.leb_spec delay TIMEOUT_MAX); [lia | reflexivity].
Qed.

Lemma timer_period_pos : forall delay, 1 <= timer_period delay.
Proof.
  intros delay.
  destruct (Z.lt_ge_cases delay 1) as [L|L].
  - rewrite timer_period_out_of_range by lia. lia.
  - destruct (Z.lt_ge_cases TIMEOUT_MAX delay) as [U|U].
    + rewrite timer_period_out_of_range by lia. lia.
    + rewrite timer_period_in_range by lia. lia.
Qed.

Lemma mount_polling : forall p,
    0 < pollInterval p <= TIMEOUT_MAX -> polling p (mount p).
Proof.
  intros p HP; unfold polling, mount, effect; simpl.
  destruct (wants_timer_pos (pollInterval p)) as (_ & W).
  rewrite (W (proj1 HP)); simpl.
  rewrite timer_period_in_range by lia.
  destruct (pollInterval p) as [|P|P]; try lia.
  repeat split; try reflexivity; lia.
Qed.

Lemma tick_polling : forall p w,
    0 < pollInterval p -> polling p w -> polling p (tick w).
Proof.
  intros p w HP (Pr & M & C & Cl & I & Is).
  unfold polling, tick; simpl. rewrite I; simpl.
  unfold fire; simpl.
  destruct (Z.leb_spec ((clock w / pollInterval p + 1) * pollInterval p)
              (clock w + 1)) as [Hit|Miss].
  - destruct (div_step_hit HP C Hit) as (Q & X).
    unfold fetchData, update_view; simpl. rewrite M; simpl.
    repeat split; try assumption; try lia.
    + rewrite I; simpl. rewrite Q. f_equal. f_equal. lia.
    + rewrite Is. unfold poll_times. rewrite Q.
      replace (Z.to_nat (clock w / pollInterval p + 1))
        with (S (Z.to_nat (clock w / pollInterval p)))
        by (pose proof (Z.div_pos (clock w) (pollInterval p) C HP); lia).
      rewrite (seq_S (S _)), map_app. f_equal. cbn [map]. f_equal. f_equal.
      pose proof (Z.div_pos (clock w) (pollInterval p) C HP).
      replace (Z.of_nat (0 + S (Z.to_nat (clock w / pollInterval p))))
        with (clock w / pollInterval p + 1) by lia.
      lia.
  - cbn [props mounted clock cleanup intervals issued with_clock].
    unfold poll_times. rewrite (div_step_miss HP C Miss).
    repeat split; try assumption; lia.
Qed.

Lemma run_polling : forall p evs w w',
    0 < pollInterval p -> polling p w -> same_params p evs = true ->
    run evs w = Some w' -> mounted w' = true -> polling p w'.
Proof.
  intros p evs; induction evs as [|e evs IH]; intros w w' HP K SP H M;
    simpl in H.
  - inversion H; subst; assumption.
  - destruct (step e w) as [w1|] eqn:S1; [|discriminate].
    assert (M1 : mounted w1 = true) by (eapply run_mounted; eauto).
    destruct e as [|i a|q|]; simpl in S1, SP.
    + inversion S1; subst w1.
      exact (IH (tick w) w' HP (tick_polling HP K) SP H M).
    + destruct (nth_error (pending w) i); [|discriminate].
      inversion S1; subst w1.
      destruct (settle_frame i a w) as (A & B & C & D & E & F & _).
      apply (IH (settle i a w) w' HP); auto.
      destruct K as (Pr & Mw & Cw & Cl & I & Is).
      unfold polling. rewrite B, C, D, E, F. repeat split; auto.
    + apply andb_true_iff in SP; destruct SP as (SP1 & SP2).
      apply props_eqb_eq in SP1; subst q.
      destruct (mounted w); [|discriminate].
      inversion S1; subst w1. unfold rerender in *.
      destruct K as (Pr & K). rewrite Pr, props_eqb_refl in *.
      eapply IH; eauto. split; assumption.
    + destruct (mounted w); [|discriminate].
      inversion S1; subst w1.
      destruct (unmount_frame w) as (A & _). congruence.
Qed.

Lemma mount_idle : forall p, pollInterval p <= 0 -> idle p (mount p).
Proof.
  intros p HP; unfold idle, mount, effect; simpl.
  destruct (wants_timer (pollInterval p)) eqn:W.
  - apply wants_timer_pos in W; lia.
  - repeat split.
Qed.

Lemma run_idle : forall p evs w w',
    idle p w -> same_params p evs = true -> run evs w = Some w' ->
    idle p w'.
Proof.
  intros p evs; induction evs as [|e evs IH]; intros w w' K SP H;
    simpl in H.
  - inversion H; subst; assumption.
  - destruct (step e w) as [w1|] eqn:S1; [|discriminate].
    destruct K as (Pr & I & Cl & Is).
    destruct e as [|i a|q|]; simpl in S1, SP.
    + inversion S1; subst w1. eapply IH; eauto.
      unfold idle, tick; simpl. rewrite I; simpl. auto.
    + destruct (nth_error (pending w) i); [|discriminate].
      inversion S1; subst w1.
      destruct (settle_frame i a w) as (A & B & C & D & E & F & _).
      eapply IH; eauto. unfold idle. rewrite B, D, E, F. auto.
    + apply andb_true_iff in SP; destruct SP as (SP1 & SP2).
      apply props_eqb_eq in SP1; subst q.
      destruct (mounted w); [|discriminate].
      inversion S1; subst w1. unfold rerender in *.
      rewrite Pr, props_eqb_refl in *.
      eapply IH; eauto. repeat split; assumption.
    + destruct (mounted w); [|discriminate].
      inversion S1; subst w1.
      eapply IH; eauto.
      unfold idle, unmount, run_cleanup. rewrite Cl; simpl. auto.
Qed.

(* --------------------------------------------------------------- *)
(** ** The refresh flag and the selects in flight *)

Lemma grows_trans : forall w1 w2 w3,
    mounted w2 = mounted w1 -> grows w1 w2 -> grows w2 w3 -> grows w1 w3.
Proof.
  unfold grows; intros w1 w2 w3 M [(P1 & V1)|(P1 & F1)] [(P2 & V2)|(P2 & F2)].
  - left; split; congruence.
  - right; split; [assumption | intros; apply F2; congruence].
  - right; split; [congruence | intros; rewrite V2; auto].
  - right; split; [assumption | intros; apply F2; congruence].
Qed.

Lemma fire_grows : forall w iv, grows w (fire w iv).
Proof.
  intros w iv; unfold fire.
  destruct (iv_due iv <=? clock w); [|left; auto].
  right; split.
  - destruct (fetchData_logs (iv_table iv)
                (with_intervals (reschedule (iv_id iv) (intervals w)) w))
      as (L & _).
    rewrite L. intros E; apply app_eq_nil in E; destruct E; discriminate.
  - intros M; apply fetchData_flag; exact M.
Qed.

Lemma fold_fire_grows : forall l w, grows w (fold_left fire l w).
Proof.
  induction l as [|iv l IH]; intros w; simpl.
  - left; auto.
  - apply grows_trans with (w2 := fire w iv).
    + apply fire_frame.
    + apply fire_grows.
    + apply IH.
Qed.

Lemma tick_grows : forall w, grows w (tick w).
Proof.
  intros w; unfold tick.
  destruct (fold_fire_grows (intervals (with_clock (clock w + 1) w))
              (with_clock (clock w + 1) w)) as [(A & B)|(A & B)].
  - left; auto.
  - right; auto.
Qed.

Lemma rerender_grows : forall q w, grows w (rerender q w).
Proof.
  intros q w; unfold rerender.
  destruct (props_eqb (props w) q); [left; auto|].
  right. unfold effect, fetchData, update_view, run_cleanup.
  destruct (cleanup w); simpl;
    destruct (wants_timer (pollInterval q)); simpl;
    (split; [intros E; apply app_eq_nil in E; destruct E; discriminate
            | intros M; rewrite M; reflexivity]).
Qed.

Lemma grows_flag : forall w w',
    grows w w' -> mounted w = true -> flag_agrees w -> flag_agrees w'.
Proof.
  unfold flag_agrees; intros w w' [(P & V)|(P & F)] M K.
  - rewrite P, V; exact K.
  - split; auto.
Qed.

Lemma pending_le_max : forall evs w,
    (List.length (pending w) <= max_in_flight evs w)%nat.
Proof.
  intros [|e evs] w; simpl; [lia|].
  destruct (step e w); lia.
Qed.

Lemma step_flag : forall e w w',
    step e w = Some w' -> mounted w' = true ->
    (List.length (pending w) <= 1)%nat ->
    flag_agrees w -> flag_agrees w'.
Proof.
  intros e w w' H M L K.
  destruct (step_view e w H M) as (Mw & _ & V).
  destruct e as [|i a|q|]; simpl in H.
  - inversion H; subst w'. eapply grows_flag; eauto using tick_grows.
  - destruct (nth_error (pending w) i) as [r|] eqn:N; [|discriminate].
    inversion H; subst w'; clear H.
    destruct (settle_frame i a w) as (_ & _ & _ & _ & _ & _ & P & _).
    unfold flag_agrees. rewrite V, P.
    destruct (pending w) as [|r0 [|r1 l]]; simpl in L; try lia.
    + destruct i; discriminate.
    + destruct i as [|i]; [|destruct i; discriminate].
      unfold remove_nth; simpl. split; [discriminate | congruence].
  - rewrite Mw in H. inversion H; subst w'.
    eapply grows_flag; eauto using rerender_grows.
  - rewrite Mw in H. inversion H; subst w'.
    destruct (unmount_frame w) as (A & _). congruence.
Qed.

Lemma run_flag : forall evs w w',
    run evs w = Some w' -> mounted w' = true ->
    (max_in_flight evs w <= 1)%nat ->
    flag_agrees w -> flag_agrees w'.
Proof.
  induction evs as [|e evs IH]; intros w w' H M L K; simpl in H, L.
  - inversion H; subst; assumption.
  - destruct (step e w) as [w1|] eqn:S1; [|discriminate].
    assert (M1 : mounted w1 = true) by (eapply run_mounted; eauto).
    apply (IH w1 w' H M); [lia|].
    eapply step_flag; eauto. lia.
Qed.

Lemma mount_flag : forall p, flag_agrees (mount p).
Proof.
  intros p; unfold flag_agrees, mount, effect; simpl.
  destruct (wants_timer (pollInterval p)); simpl;
    (split; intros; [discriminate | reflexivity]).
Qed.

(* ================================================================= *)
(** ** Properties of the viewer *)

(** C1. After a select settles successfully the snapshot is exactly the
    rows it returned (the empty list when it returned null), the
    last-updated time is the time of completion and the error is
    cleared; so, whatever has happened since the mount, the snapshot of
    the mounted component is the payload of the most recent successful
    select, or empty when there has been none. *)
Theorem C1_snapshot_is_latest_success : forall p evs w,
    run evs (mount p) = Some w -> mounted w = true ->
    data (view w) = Some (payload (latest_success 0 None evs)) /\
    lastUpdated (view w) = option_map fst (latest_success 0 None evs) /\
    forall i rows w',
      step (Settle i (succeeded rows)) w = Some w' ->
      data (view w') = Some (records_or_empty rows) /\
      lastUpdated (view w') = Some (clock w) /\
      error (view w') = None.
Proof.
  intros p evs w H M.
  destruct (history_since_mount p evs H M) as (A & B & _).
  split; [exact A|]. split; [exact B|].
  intros i rows w' S1; simpl in S1.
  destruct (nth_error (pending w) i); [|discriminate].
  inversion S1; subst w'; unfold settle, update_view; simpl.
  rewrite M. repeat split.
Qed.

(** C2 (as amended). When a select fails, the error cell receives the
    failure's message if that message is a non-empty string and the
    fixed text "An unknown error occurred during refresh." if the
    message is missing or empty; the snapshot and the last-updated time
    are left as they were.  Any settle either leaves the snapshot
    untouched or replaces it with the whole payload, and in both cases
    switches off the refresh flag and the initial-load flag. *)
Theorem C2_failed_fetch_keeps_snapshot : forall w i a w',
    mounted w = true -> step (Settle i a) w = Some w' ->
    isRefreshing (view w') = false /\
    loading (view w') = false /\
    (data (view w') = data (view w) \/
     exists rows, a = succeeded rows /\
                  data (view w') = Some (records_or_empty rows)) /\
    forall err, failure_of a = Some err ->
      data (view w') = data (view w) /\
      lastUpdated (view w') = lastUpdated (view w) /\
      (forall m, message err = Some m -> m <> EmptyString ->
                 error (view w') = Some m) /\
      (message err = None \/ message err = Some EmptyString ->
       error (view w') = Some unknown_error).
Proof.
  intros w i a w' M H; simpl in H.
  destruct (nth_error (pending w) i); [|discriminate].
  inversion H; subst w'; clear H.
  destruct (settle_frame i a w) as (_ & _ & _ & _ & _ & _ & _ & V).
  rewrite (V M); clear V.
  split; [reflexivity|]. split; [reflexivity|]. split.
  - destruct a as [[rows [err|]]|err]; simpl; auto.
    right; exists rows; auto.
  - intros err F.
    assert (T : try_block a = inr err).
    { destruct a as [[rows [e|]]|e]; simpl in *; congruence. }
    unfold fetchData_settle; rewrite T; simpl.
    repeat split.
    + intros m Hm Hne. unfold message_or_default; rewrite Hm.
      destruct m; [congruence | reflexivity].
    + intros [Hm|Hm]; unfold message_or_default; rewrite Hm; reflexivity.
Qed.

(** C3. Whatever has happened since the mount, the error cell is
    non-null exactly when the most recent select to settle failed
    (whether or not a later select is in flight and still unresolved).
    Starting a select never changes the error cell, and the only event
    that clears it is a select settling successfully. *)
Theorem C3_error_iff_last_fetch_failed : forall p evs w,
    run evs (mount p) = Some w -> mounted w = true ->
    (error (view w) <> None <->
     last_settled_failed evs = true \/
     (last_settled_failed evs = true /\ pending w <> [])) /\
    (forall table, error (view (fetchData table w)) = error (view w)) /\
    (forall e w', step e w = Some w' ->
       error (view w) <> None -> error (view w') = None ->
       exists i rows, e = Settle i (succeeded rows)).
Proof.
  intros p evs w H M.
  destruct (history_since_mount p evs H M) as (_ & _ & E & _).
  split; [|split].
  - rewrite E. unfold last_settled_failed, error_after, failed.
    destruct (last_settled None evs) as [a|]; simpl.
    + destruct (failure_of a); simpl; split;
        try discriminate; try tauto.
      intros [X|(X & _)]; discriminate.
    + split; [congruence | intros [X|(X & _)]; discriminate].
  - intros table. apply (fetchData_frame table w).
  - intros e w' S1 N Z.
    destruct e as [|i a|q|]; simpl in S1; rewrite ?M in S1.
    + inversion S1; subst w'.
      destruct (tick_frame w) as (_ & _ & _ & _ & _ & _ & _ & Q & _).
      congruence.
    + destruct (nth_error (pending w) i); [|discriminate].
      inversion S1; subst w'; clear S1.
      destruct (settle_frame i a w) as (_ & _ & _ & _ & _ & _ & _ & V).
      rewrite (V M) in Z.
      destruct a as [[rows [err|]]|err]; simpl in Z; try discriminate.
      exists i, rows; reflexivity.
    + inversion S1; subst w'.
      destruct (rerender_frame q w) as (_ & _ & _ & _ & Q & _).
      congruence.
    + inversion S1; subst w'.
      destruct (unmount_frame w) as (_ & _ & V). congruence.
Qed.

(** C4. Whatever has happened since the mount, the mounted component
    shows the full-page loading indicator, with the table name in its
    message, exactly when no select has settled yet, successfully or
    not. *)
Theorem C4_initial_loading_iff_nothing_settled : forall p evs w,
    run evs (mount p) = Some w -> mounted w = true ->
    (screen w = Some (LoadingView (tableName (props w))) <->
     settled_count evs = O).
Proof.
  intros p evs w H M.
  destruct (history_since_mount p evs H M) as (D & _ & _ & L).
  unfold screen, render. rewrite L, D.
  destruct (settled_count evs) as [|n]; simpl.
  - split; reflexivity.
  - split; [|discriminate].
    destruct (Js.truthy_string (error (view w)));
      destruct (payload (latest_success 0 None evs)); discriminate.
Qed.

(** C5 (as amended). Once a select has settled, the mounted component
    shows: the blocking error panel with the table name and the error
    text when the error is set and the snapshot is empty; the
    empty-state message naming the table when the snapshot is empty and
    there is no error; otherwise the list of records, with the time of
    the most recent successful select, the warning banner exactly when
    the error is set, and the refresh indicator exactly when the
    refresh flag is on.  The flag is switched on when a select starts
    and off when any select settles, so as long as no two selects have
    been in flight together it is on exactly when a select is in
    flight. *)
Theorem C5_render_selection : forall p evs w,
    run evs (mount p) = Some w -> mounted w = true ->
    (1 <= settled_count evs)%nat ->
    screen w =
      Some (selected_view (tableName (props w))
              (payload (latest_success 0 None evs))
              (error (view w))
              (isRefreshing (view w))
              (option_map fst (latest_success 0 None evs))) /\
    ((max_in_flight evs (mount p) <= 1)%nat ->
     (isRefreshing (view w) = true <-> pending w <> [])).
Proof.
  intros p evs w H M N.
  destruct (history_since_mount p evs H M) as (D & U & _ & L).
  destruct (@run_cells_ok evs (mount p) w H (mount_cells_ok p)) as (_ & E).
  split.
  - unfold screen, render, selected_view, list_view, render_banner.
    rewrite L, D, U.
    destruct (settled_count evs) as [|n]; [lia|]; simpl.
    destruct E as [E|E]; rewrite E.
    + simpl. destruct (payload (latest_success 0 None evs)); reflexivity.
    + destruct (error (view w)) as [[|c m]|]; try discriminate.
      destruct (payload (latest_success 0 None evs)); reflexivity.
  - intros S. apply (@run_flag evs (mount p) w H M S (mount_flag p)).
Qed.


(** C8 (as amended). Mounting always issues one select at once.  With
    a poll interval of zero or less no interval is armed, and for as
    long as the props stay the same that select remains the only one.
    With a poll interval from 1 to 2147483647, the largest delay a timer
    honours, one repeating interval of that period is armed, first due
    one period after the mount, and while the component stays mounted
    with the same props the selects issued are exactly one per multiple
    of the period elapsed. *)
Theorem C8_timer_for_interval_in_range : forall p,
    issued (mount p) = [mkRequest (tableName p) 0] /\
    (pollInterval p <= 0 ->
     intervals (mount p) = [] /\
     forall evs w,
       same_params p evs = true -> run evs (mount p) = Some w ->
       intervals w = [] /\ issued w = [mkRequest (tableName p) 0]) /\
    (0 < pollInterval p <= 2147483647 ->
     intervals (mount p) =
       [mkInterval 1 (tableName p) (pollInterval p) (pollInterval p)] /\
     forall evs w,
       same_params p evs = true -> run evs (mount p) = Some w ->
       mounted w = true ->
       issued w = poll_times (tableName p) (pollInterval p) (clock w)).
Proof.
  intros p; split; [|split].
  - unfold mount, effect; simpl.
    destruct (wants_timer (pollInterval p)); reflexivity.
  - intros HP. split; [apply (mount_idle p HP)|].
    intros evs w SP H.
    destruct (@run_idle p evs (mount p) w (mount_idle p HP) SP H)
      as (_ & I & _ & Is).
    auto.
  - intros HP.
    pose proof (mount_polling p HP) as K. split.
    + destruct K as (_ & _ & _ & _ & I & _).
      destruct (mount_frame p) as (_ & _ & C & _).
      rewrite I, C. destruct (pollInterval p); try lia. reflexivity.
    + intros evs w SP H M.
      apply (@run_polling p evs (mount p) w (proj1 HP) K SP H M).
Qed.

(** C9. In every world reached from a mount the interval table holds
    at most one interval.  While the component is mounted, the cleanup
    closure empties the table; a render with a changed table name or
    poll interval runs that cleanup before the effect arms anything
    new, and unmounting runs it too.  Once the component is unmounted
    the table is empty and no select is issued at any later time. *)
Theorem C9_cleanup_cancels_timer : forall p evs w,
    run evs (mount p) = Some w ->
    (List.length (intervals w) <= 1)%nat /\
    (mounted w = true ->
     intervals (run_cleanup w) = [] /\
     intervals (unmount w) = [] /\
     forall q, props_eqb (props w) q = false ->
               rerender q w = effect (with_props q (run_cleanup w)) /\
               (List.length (intervals (rerender q w)) <= 1)%nat) /\
    (mounted w = false ->
     intervals w = [] /\
     forall evs' w', run evs' w = Some w' -> issued w' = issued w).
Proof.
  intros p evs w H.
  pose proof (@run_timer_inv evs (mount p) w H (mount_timer_inv p)) as K.
  assert (Len : forall w0, timer_inv w0 ->
                           (List.length (intervals w0) <= 1)%nat).
  { intros w0 (I & _).
    rewrite <- (length_map iv_id), I. destruct (cleanup w0); simpl; lia. }
  split; [apply Len; exact K|]. split.
  - intros M. destruct (run_cleanup_clears K) as (I & _).
    split; [exact I|]. split; [unfold unmount; simpl; exact I|].
    intros q Q. split.
    + unfold rerender; rewrite Q; reflexivity.
    + apply Len. apply (@step_timer_inv (Rerender q) w); [|exact K].
      simpl; rewrite M; reflexivity.
  - intros M. pose proof (timer_inv_gone K M) as I.
    split; [exact I|].
    intros evs' w' H'. apply (@run_after_unmount evs' w w' H' M I).
Qed.

(** C10. In every world reached from a mount the snapshot cell holds a
    list, never null: it starts as the empty list, and a successful
    select whose payload is null stores the empty list.  Rendering
    therefore never fails on reading the snapshot's length, and after a
    successful select with a null payload the component shows the
    empty-state message. *)
Theorem C10_snapshot_is_always_a_list : forall p evs w,
    run evs (mount p) = Some w ->
    data initial_state = Some [] /\
    (exists rows, data (view w) = Some rows) /\
    screen w <> None /\
    forall i w',
      mounted w = true ->
      step (Settle i (succeeded None)) w = Some w' ->
      data (view w') = Some [] /\
      screen w' = Some (EmptyView (tableName (props w'))).
Proof.
  intros p evs w H.
  pose proof (@run_cells_ok evs (mount p) w H (mount_cells_ok p)) as K.
  split; [reflexivity|]. split; [apply K|].
  split; [apply render_total; exact K|].
  intros i w' M S1; simpl in S1.
  destruct (nth_error (pending w) i); [|discriminate].
  inversion S1; subst w'; clear S1.
  unfold screen, settle, update_view; simpl. rewrite M; simpl.
  split; reflexivity.
Qed.

(* ================================================================= *)
(** ** Further properties of the viewer *)

Lemma grows_flag_sound : forall w w',
    grows w w' -> flag_sound w -> flag_sound w'.
Proof.
  unfold flag_sound; intros w w' [(P & V)|(P & _)] K.
  - rewrite P, V; exact K.
  - intros _; exact P.
Qed.

Lemma run_flag_sound : forall evs w w',
    run evs w = Some w' -> mounted w' = true ->
    flag_sound w -> flag_sound w'.
Proof.
  induction evs as [|e evs IH]; intros w w' H M K; simpl in H.
  - inversion H; subst; assumption.
  - destruct (step e w) as [w1|] eqn:S1; [|discriminate].
    assert (M1 : mounted w1 = true) by (eapply run_mounted; eauto).
    apply (IH w1 w' H M).
    destruct (step_view e w S1 M1) as (Mw & _ & V).
    destruct e as [|i a|q|]; simpl in S1; rewrite ?Mw in S1.
    + inversion S1; subst w1.
      apply (grows_flag_sound (tick_grows w) K).
    + unfold flag_sound; rewrite V; simpl; discriminate.
    + inversion S1; subst w1.
      apply (grows_flag_sound (rerender_grows q w) K).
    + inversion S1; subst w1.
      destruct (unmount_frame w) as (A & _); congruence.
Qed.

(** X3. Whatever has happened since the mount, and even when selects
    overlap, the refresh flag of the mounted component is on only while
    some select is in flight: the indicator never spins over nothing. *)
Theorem X3_indicator_needs_a_select_in_flight : forall p evs w,
    run evs (mount p) = Some w -> mounted w = true ->
    isRefreshing (view w) = true -> pending w <> [].
Proof.
  intros p evs w H M.
  apply (@run_flag_sound evs (mount p) w H M).
  unfold flag_sound. intros _.
  unfold mount, effect, fetchData; simpl.
  destruct (wants_timer (pollInterval p)); simpl; discriminate.
Qed.

Lemma screen_list_inv : forall w t r u b items,
    screen w = Some (ListView t r u b items) ->
    loading (view w) = false /\
    t = tableName (props w) /\ r = isRefreshing (view w) /\
    u = lastUpdated (view w) /\ b = render_banner (error (view w)) /\
    exists row rows,
      data (view w) = Some (row :: rows) /\
      items = map render_item (row :: rows).
Proof.
  intros w t r u b items; unfold screen, render, list_view.
  destruct (loading (view w)); [discriminate|].
  destruct (Js.truthy_string (error (view w)));
    destruct (data (view w)) as [[|row rows]|]; try discriminate;
    intros H; inversion H; subst; repeat split; eauto.
Qed.

Lemma message_or_default_nonempty : forall err,
    exists c m, message_or_default err = String c m.
Proof.
  intros [[[|c m]|]]; unfold message_or_default, unknown_error; simpl;
    eauto.
Qed.

Lemma failed_try_block : forall a err,
    failure_of a = Some err -> try_block a = inr err.
Proof.
  intros [[rows [e|]]|e] err; simpl; congruence.
Qed.

(** X4. When a select fails while the list is on screen, the list stays
    exactly as it was, with the same time of last update; the indicator
    goes off and the warning banner carries the failure's message (or
    the fixed text when the failure has none). *)
Theorem X4_failure_keeps_rows_on_screen :
  forall w i a err w' t r u b items,
    mounted w = true -> step (Settle i a) w = Some w' ->
    failure_of a = Some err ->
    screen w = Some (ListView t r u b items) ->
    screen w' =
      Some (ListView t false u (Some (message_or_default err)) items).
Proof.
  intros w i a err w' t r u b items M S1 F V.
  destruct (screen_list_inv w V)
    as (L & Et & _ & Eu & _ & row & rows & D & Ei).
  simpl in S1. destruct (nth_error (pending w) i); [|discriminate].
  inversion S1; subst w'; clear S1.
  unfold screen, settle, update_view; simpl. rewrite M; simpl.
  unfold render, fetchData_settle. rewrite (failed_try_block a F); simpl.
  destruct (message_or_default_nonempty err) as (c & m & E).
  rewrite E, D. unfold list_view, render_banner; simpl.
  subst; reflexivity.
Qed.

(** X5. When a select fails while the snapshot is empty, be it the
    very first select or a later one, the component shows the blocking
    error panel with the table name and the failure's message (or the
    fixed text when the failure has none). *)
Theorem X5_failure_without_rows_blocks : forall w i a err w',
    mounted w = true -> step (Settle i a) w = Some w' ->
    failure_of a = Some err ->
    data (view w) = Some [] ->
    screen w' =
      Some (ErrorPanel (tableName (props w)) (message_or_default err)).
Proof.
  intros w i a err w' M S1 F D.
  simpl in S1. destruct (nth_error (pending w) i); [|discriminate].
  inversion S1; subst w'; clear S1.
  unfold screen, settle, update_view; simpl. rewrite M; simpl.
  unfold render, fetchData_settle. rewrite (failed_try_block a F); simpl.
  destruct (message_or_default_nonempty err) as (c & m & E).
  rewrite E, D. reflexivity.
Qed.

(** X6. After a select settles successfully the screen depends on its
    payload alone: the empty-state message when the payload is empty or
    null, and otherwise the list of exactly those rows, dated now, with
    no warning banner and with the indicator off, whatever was on
    screen before and whatever else is still in flight. *)
Theorem X6_success_decides_the_screen : forall w i rows w',
    mounted w = true ->
    step (Settle i (succeeded rows)) w = Some w' ->
    screen w' =
      Some (match records_or_empty rows with
            | [] => EmptyView (tableName (props w))
            | row :: rest =>
                ListView (tableName (props w)) false (Some (clock w)) None
                  (map render_item (row :: rest))
            end).
Proof.
  intros w i rows w' M S1.
  simpl in S1. destruct (nth_error (pending w) i); [|discriminate].
  inversion S1; subst w'; clear S1.
  unfold screen, settle, update_view; simpl. rewrite M; simpl.
  unfold render; simpl.
  destruct (records_or_empty rows); reflexivity.
Qed.

(** X7. Whatever has happened since the mount, the error cell is never
    the empty string: it is null or a text of at least one character,
    so the tests [error && ...] in the render logic succeed exactly when
    an error is stored. *)
Theorem X7_stored_error_is_never_empty : forall p evs w,
    run evs (mount p) = Some w ->
    error (view w) <> Some EmptyString /\
    render_banner (error (view w)) = error (view w).
Proof.
  intros p evs w H.
  destruct (@run_cells_ok evs (mount p) w H (mount_cells_ok p))
    as (_ & [E|E]).
  - rewrite E; split; [discriminate | reflexivity].
  - unfold render_banner; rewrite E.
    destruct (error (view w)) as [[|c m]|]; try discriminate.
    split; [discriminate | reflexivity].
Qed.

Lemma settled_count_app : forall evs1 evs2,
    settled_count (evs1 ++ evs2)
    = (settled_count evs1 + settled_count evs2)%nat.
Proof.
  induction evs1 as [|e evs1 IH]; intros evs2; simpl; [reflexivity|].
  destruct e; simpl; rewrite IH; reflexivity.
Qed.

(** X12. Once a select has settled, successfully or not, nothing that
    happens later brings the full-page loading indicator back: not a
    new poll, and not a change of table name or poll interval. *)
Theorem X12_loader_never_returns : forall p evs1 evs2 w table,
    run (evs1 ++ evs2) (mount p) = Some w -> mounted w = true ->
    (1 <= settled_count evs1)%nat ->
    screen w <> Some (LoadingView table).
Proof.
  intros p evs1 evs2 w table H M N.
  destruct (history_since_mount p _ H M) as (D & _ & _ & L).
  rewrite settled_count_app in L.
  unfold screen, render. rewrite L, D.
  destruct (settled_count evs1) as [|n]; [lia|]; simpl.
  destruct (Js.truthy_string (error (view w)));
    destruct (payload (latest_success 0 None (evs1 ++ evs2)));
    discriminate.
Qed.

Lemma run_dated : forall evs w w',
    run evs w = Some w' -> mounted w' = true -> dated w -> dated w'.
Proof.
  induction evs as [|e evs IH]; intros w w' H M K; simpl in H.
  - inversion H; subst; assumption.
  - destruct (step e w) as [w1|] eqn:S1; [|discriminate].
    assert (M1 : mounted w1 = true) by (eapply run_mounted; eauto).
    apply (IH w1 w' H M).
    destruct (step_view e w S1 M1) as (_ & C & V).
    destruct K as (K0 & K1 & K2). unfold dated.
    destruct e as [|i a|q|].
    + destruct V as (V1 & _ & _ & V4). rewrite C, V1, V4.
      split; [lia|]. split; [exact K1|].
      intros t T; specialize (K2 t T); lia.
    + rewrite C, V. unfold fetchData_settle.
      destruct (try_block a) as [records|err]; simpl.
      * split; [exact K0|]. split; [discriminate|].
        intros t T; inversion T; subst; lia.
      * split; [exact K0|]. split; [exact K1 | exact K2].
    + destruct V as (V1 & _ & _ & V4). rewrite C, V1, V4. auto.
    + destruct V as (V1 & _ & _ & V4). rewrite C, V1, V4. auto.
Qed.

Lemma mount_dated : forall p, dated (mount p).
Proof.
  intros p; destruct (mount_frame p) as (_ & _ & C & V).
  unfold dated; rewrite C, V; simpl.
  split; [lia|]. split; [reflexivity | discriminate].
Qed.

(** X8. Whenever the mounted component shows the list, it shows a time
    of last update with it, and that time lies between the mount and
    the present: the guard [lastUpdated && ...] never hides it. *)
Theorem X8_list_is_always_dated : forall p evs w t r u b items,
    run evs (mount p) = Some w -> mounted w = true ->
    screen w = Some (ListView t r u b items) ->
    exists time, u = Some time /\ 0 <= time <= clock w.
Proof.
  intros p evs w t r u b items H M V.
  destruct (@run_dated evs (mount p) w H M (mount_dated p))
    as (_ & K1 & K2).
  destruct (screen_list_inv w V) as (_ & _ & _ & Eu & _ & row & rows & D & _).
  subst u. destruct (lastUpdated (view w)) as [time|].
  - exists time; split; [reflexivity | apply K2; reflexivity].
  - rewrite (K1 eq_refl) in D; discriminate.
Qed.

Lemma timer_ok_cleanup : forall w,
    timer_ok w ->
    intervals (run_cleanup w) = [] /\ cleanup (run_cleanup w) = None.
Proof.
  intros w K; unfold timer_ok in K; unfold run_cleanup.
  destruct (intervals w) as [|iv [|iv' l]] eqn:I; [| |contradiction].
  - destruct K as (C & _). rewrite C. auto.
  - destruct K as (C & _). rewrite C; simpl.
    unfold clearInterval; simpl. rewrite I; simpl.
    rewrite Nat.eqb_refl; simpl. auto.
Qed.

Lemma effect_timer_ok : forall w,
    intervals w = [] -> mounted w = true -> timer_ok (effect w).
Proof.
  intros w I M; unfold timer_ok, effect, fetchData, update_view.
  rewrite M.
  destruct (wants_timer (pollInterval (props w))) eqn:W.
  - apply wants_timer_pos in W.
    cbn [setInterval intervals cleanup mounted props clock next_id
         with_cleanup with_view iv_id iv_table iv_period iv_due fst snd].
    rewrite I. cbn [app].
    cbn [iv_id iv_table iv_period iv_due].
    pose proof (timer_period_pos (pollInterval (props w))).
    repeat split; try assumption; lia.
  - cbn [intervals cleanup mounted props with_cleanup with_view].
    rewrite I. split; [reflexivity|].
    intros _. destruct (wants_timer_pos (pollInterval (props w))) as (_ & P).
    destruct (Z.lt_ge_cases 0 (pollInterval (props w))) as [X|X];
      [rewrite (P X) in W; discriminate | exact X].
Qed.

Lemma step_timer_ok : forall e w w',
    step e w = Some w' -> timer_ok w -> timer_ok w'.
Proof.
  intros e w w' H K; destruct e as [|i a|q|]; simpl in H.
  - inversion H; subst w'; clear H.
    unfold timer_ok in K.
    destruct (intervals w) as [|iv [|iv' l]] eqn:I; [| |contradiction].
    + assert (T : tick w = with_clock (clock w + 1) w)
        by (unfold tick; simpl; rewrite I; reflexivity).
      rewrite T. unfold timer_ok; simpl. rewrite I. exact K.
    + assert (T : tick w = fire (with_clock (clock w + 1) w) iv)
        by (unfold tick; simpl; rewrite I; reflexivity).
      rewrite T. destruct K as (C & M & P & Tb & Pe & D).
      pose proof (timer_period_pos (pollInterval (props w))) as Pp.
      unfold fire; cbn [clock with_clock].
      destruct (Z.leb_spec (iv_due iv) (clock w + 1)) as [Hit|Miss].
      * unfold timer_ok, fetchData, update_view.
        cbn [mounted with_intervals with_clock]. rewrite M.
        cbn [intervals cleanup mounted props clock with_view
             with_intervals with_clock].
        rewrite I. cbn [reschedule map]. rewrite Nat.eqb_refl.
        cbn [iv_id iv_table iv_period iv_due].
        repeat split; try assumption; lia.
      * unfold timer_ok.
        cbn [intervals cleanup mounted props clock with_clock].
        rewrite I. repeat split; try assumption; lia.
  - destruct (nth_error (pending w) i); [|discriminate].
    inversion H; subst w'; clear H.
    destruct (settle_frame i a w) as (A & B & C & D & E & _).
    unfold timer_ok in *. rewrite A, B, C, D, E. exact K.
  - destruct (mounted w) eqn:M; [|discriminate].
    inversion H; subst w'; clear H. unfold rerender.
    destruct (props_eqb (props w) q); [exact K|].
    destruct (timer_ok_cleanup w K) as (I & _).
    destruct (run_cleanup_frame w) as (Mc & _).
    apply effect_timer_ok; simpl; congruence.
  - destruct (mounted w) eqn:M; [|discriminate].
    inversion H; subst w'; clear H.
    destruct (timer_ok_cleanup w K) as (I & C).
    unfold timer_ok, unmount; simpl. rewrite I, C.
    split; [reflexivity | discriminate].
Qed.

Lemma run_timer_ok : forall evs w w',
    run evs w = Some w' -> timer_ok w -> timer_ok w'.
Proof.
  induction evs as [|e evs IH]; intros w w' H K; simpl in H.
  - inversion H; subst; assumption.
  - destruct (step e w) as [w1|] eqn:S1; [|discriminate].
    eapply IH; eauto. eapply step_timer_ok; eauto.
Qed.

(** X9. Whatever has happened since the mount, table changes and
    interval changes included, the timer of the mounted component is
    the one its current props ask for: with a positive poll interval
    exactly one interval is armed, for the current table name, due
    within one of its periods from now, and its period is the current
    poll interval whenever that is at most 2147483647, the largest delay
    a timer honours; with a poll interval of zero or less none is
    armed. *)
Theorem X9_timer_follows_current_props : forall p evs w,
    run evs (mount p) = Some w -> mounted w = true ->
    (0 < pollInterval (props w) ->
     exists id period due,
       intervals w = [mkInterval id (tableName (props w)) period due] /\
       clock w < due <= clock w + period /\
       (pollInterval (props w) <= 2147483647 ->
        period = pollInterval (props w))) /\
    (pollInterval (props w) <= 0 -> intervals w = []).
Proof.
  intros p evs w H M.
  assert (K : timer_ok w).
  { apply (@run_timer_ok evs (mount p) w H).
    apply effect_timer_ok; reflexivity. }
  unfold timer_ok in K.
  destruct (intervals w) as [|iv [|iv' l]]; [| |contradiction].
  - destruct K as (_ & K). specialize (K M).
    split; [lia | reflexivity].
  - destruct K as (_ & _ & P & Tb & Pe & D).
    split; [|lia]. intros _.
    exists (iv_id iv), (iv_period iv), (iv_due iv).
    destruct iv as [id tb pe du]; simpl in *. subst tb.
    split; [reflexivity|]. split; [lia|].
    intros U. rewrite Pe. apply timer_period_in_range.
    unfold TIMEOUT_MAX; lia.
Qed.

Lemma effect_polling_from : forall w,
    intervals w = [] -> mounted w = true ->
    0 < pollInterval (props w) <= TIMEOUT_MAX ->
    polling_from (clock w) (next_id w) (issued w) (props w) (effect w).
Proof.
  intros w I M P; unfold polling_from, polls_since, effect, fetchData,
    update_view.
  rewrite M.
  destruct (wants_timer_pos (pollInterval (props w))) as (_ & W).
  rewrite (W (proj1 P)).
  cbn [setInterval intervals cleanup mounted props clock next_id issued
       with_cleanup with_view fst snd].
  rewrite I. cbn [app]. rewrite timer_period_in_range by lia.
  rewrite Z.sub_diag, Z.div_0_l by lia.
  replace ((0 + 1) * pollInterval (props w)) with (pollInterval (props w))
    by lia.
  cbn [Z.to_nat seq map Z.of_nat].
  replace (clock w + 0 * pollInterval (props w)) with (clock w) by lia.
  repeat split; try reflexivity; try assumption; lia.
Qed.

Lemma tick_polling_from : forall t0 id log q w,
    0 < pollInterval q -> polling_from t0 id log q w ->
    polling_from t0 id log q (tick w).
Proof.
  intros t0 id log q w HP (Pr & M & C & Cl & I & Is).
  assert (T : tick w =
              fire (with_clock (clock w + 1) w)
                (mkInterval id (tableName q) (pollInterval q)
                   (t0 + ((clock w - t0) / pollInterval q + 1)
                         * pollInterval q)))
    by (unfold tick; simpl; rewrite I; reflexivity).
  rewrite T; clear T.
  assert (D0 : 0 <= clock w - t0) by lia.
  pose proof (Z.div_pos (clock w - t0) (pollInterval q) D0 HP) as Q0.
  unfold fire; cbn [clock with_clock iv_due iv_table iv_id].
  unfold polling_from, polls_since.
  replace (clock w + 1 - t0) with (clock w - t0 + 1) by lia.
  destruct (Z.leb_spec
              (t0 + ((clock w - t0) / pollInterval q + 1) * pollInterval q)
              (clock w + 1)) as [Hit|Miss].
  - destruct (@div_step_hit (pollInterval q) (clock w - t0) HP D0)
      as (Q & X); [lia|].
    unfold fetchData, update_view.
    cbn [mounted with_intervals with_clock]. rewrite M.
    cbn [intervals cleanup mounted props clock issued with_view
         with_intervals with_clock].
    replace (clock w + 1 - t0) with (clock w - t0 + 1) by lia.
    rewrite I, Q. cbn [reschedule map]. rewrite Nat.eqb_refl.
    cbn [iv_id iv_table iv_period iv_due].
    repeat split; try assumption; try lia.
    + f_equal. f_equal. lia.
    + rewrite Is. unfold polls_since. rewrite <- app_assoc. f_equal.
      replace (Z.to_nat ((clock w - t0) / pollInterval q + 1))
        with (S (Z.to_nat ((clock w - t0) / pollInterval q))) by lia.
      rewrite (seq_S (S _)), map_app. f_equal. cbn [map]. f_equal. f_equal.
      replace (Z.of_nat
                 (0 + S (Z.to_nat ((clock w - t0) / pollInterval q))))
        with ((clock w - t0) / pollInterval q + 1) by lia.
      lia.
  - cbn [intervals cleanup mounted props clock issued with_clock].
    replace (clock w + 1 - t0) with (clock w - t0 + 1) by lia.
    rewrite (@div_step_miss (pollInterval q) (clock w - t0) HP D0)
      by lia.
    repeat split; try assumption; lia.
Qed.

Lemma run_polling_from : forall t0 id log q evs w w',
    0 < pollInterval q -> polling_from t0 id log q w ->
    same_params q evs = true ->
    run evs w = Some w' -> mounted w' = true ->
    polling_from t0 id log q w'.
Proof.
  intros t0 id log q evs; induction evs as [|e evs IH];
    intros w w' HP K SP H M; simpl in H.
  - inversion H; subst; assumption.
  - destruct (step e w) as [w1|] eqn:S1; [|discriminate].
    assert (M1 : mounted w1 = true) by (eapply run_mounted; eauto).
    destruct e as [|i a|r|]; simpl in S1, SP.
    + inversion S1; subst w1.
      exact (IH (tick w) w' HP (tick_polling_from HP K) SP H M).
    + destruct (nth_error (pending w) i); [|discriminate].
      inversion S1; subst w1.
      destruct (settle_frame i a w) as (A & B & C & D & E & F & _).
      apply (IH (settle i a w) w' HP); auto.
      destruct K as (Pr & Mw & Cw & Cl & I & Is).
      unfold polling_from. rewrite B, C, D, E, F. repeat split; auto.
    + apply andb_true_iff in SP; destruct SP as (SP1 & SP2).
      apply props_eqb_eq in SP1; subst r.
      destruct (mounted w); [|discriminate].
      inversion S1; subst w1. unfold rerender in *.
      destruct K as (Pr & K). rewrite Pr, props_eqb_refl in *.
      eapply IH; eauto. split; assumption.
    + destruct (mounted w); [|discriminate].
      inversion S1; subst w1.
      destruct (unmount_frame w) as (A & _). congruence.
Qed.

Lemma run_idle_with : forall log q evs w w',
    idle_with log q w -> same_params q evs = true ->
    run evs w = Some w' -> idle_with log q w'.
Proof.
  intros log q evs; induction evs as [|e evs IH]; intros w w' K SP H;
    simpl in H.
  - inversion H; subst; assumption.
  - destruct (step e w) as [w1|] eqn:S1; [|discriminate].
    destruct K as (Pr & I & Cl & Is).
    destruct e as [|i a|r|]; simpl in S1, SP.
    + inversion S1; subst w1. eapply IH; eauto.
      unfold idle_with, tick; simpl. rewrite I; simpl. auto.
    + destruct (nth_error (pending w) i); [|discriminate].
      inversion S1; subst w1.
      destruct (settle_frame i a w) as (A & B & C & D & E & F & _).
      eapply IH; eauto. unfold idle_with. rewrite B, D, E, F. auto.
    + apply andb_true_iff in SP; destruct SP as (SP1 & SP2).
      apply props_eqb_eq in SP1; subst r.
      destruct (mounted w); [|discriminate].
      inversion S1; subst w1. unfold rerender in *.
      rewrite Pr, props_eqb_refl in *.
      eapply IH; eauto. repeat split; assumption.
    + destruct (mounted w); [|discriminate].
      inversion S1; subst w1.
      eapply IH; eauto.
      unfold idle_with, unmount, run_cleanup. rewrite Cl; simpl. auto.
Qed.

(** X10. A render that changes the table name or the poll interval
    makes one select for the new table at once and starts the schedule
    afresh from that moment.  With a new interval of zero or less that
    select stays the only new one; with a new interval from 1 to
    2147483647, the largest delay a timer honours, and for as long as
    the component stays mounted with these props, the new selects are
    exactly those at the moment of the change and at every whole number
    of new periods after it. *)
Theorem X10_parameter_change_restarts_polling :
  forall p evs w q evs' w',
    run evs (mount p) = Some w -> mounted w = true ->
    props_eqb (props w) q = false -> same_params q evs' = true ->
    run (Rerender q :: evs') w = Some w' ->
    (pollInterval q <= 0 ->
     issued w' = issued w ++ [mkRequest (tableName q) (clock w)]) /\
    (0 < pollInterval q <= 2147483647 -> mounted w' = true ->
     issued w' =
       issued w ++
       polls_since (tableName q) (pollInterval q) (clock w) (clock w')).
Proof.
  intros p evs w q evs' w' H M Q SP H'.
  simpl in H'. rewrite M in H'. unfold rerender in H'. rewrite Q in H'.
  assert (K : timer_ok w).
  { apply (@run_timer_ok evs (mount p) w H).
    apply effect_timer_ok; reflexivity. }
  destruct (timer_ok_cleanup w K) as (I & Cl).
  destruct (run_cleanup_frame w) as (Mc & _ & Cc & _ & _ & Ic & Nc).
  set (w0 := with_props q (run_cleanup w)) in *.
  assert (I0 : intervals w0 = []) by exact I.
  assert (M0 : mounted w0 = true) by (simpl; congruence).
  split.
  - intros P.
    assert (K0 : idle_with (issued w ++ [mkRequest (tableName q) (clock w)])
                   q (effect w0)).
    { assert (P0 : props w0 = q) by reflexivity.
      assert (C0 : clock w0 = clock w) by exact Cc.
      assert (L0 : issued w0 = issued w) by exact Ic.
      destruct (fetchData_frame (tableName (props w0)) w0)
        as (_ & B & _ & _ & E & _).
      destruct (fetchData_logs (tableName (props w0)) w0) as (_ & L).
      unfold idle_with, effect.
      destruct (wants_timer (pollInterval (props w0))) eqn:W.
      - apply wants_timer_pos in W. rewrite P0 in W. lia.
      - cbn [intervals cleanup props issued with_cleanup].
        rewrite B, E, L, P0, C0, L0, I0. auto. }
    apply (@run_idle_with _ q evs' (effect w0) w' K0 SP H').
  - intros P M'.
    assert (P0 : props w0 = q) by reflexivity.
    assert (C0 : clock w0 = clock w) by exact Cc.
    assert (L0 : issued w0 = issued w) by exact Ic.
    assert (K0 : polling_from (clock w0) (next_id w0) (issued w0)
                   (props w0) (effect w0))
      by (apply effect_polling_from; [exact I0 | exact M0
                                      | rewrite P0; exact P]).
    destruct P as (P & _).
    rewrite P0, C0, L0 in K0.
    apply (@run_polling_from _ _ _ q evs' (effect w0) w' P K0 SP H' M').
Qed.

(** X11. A change of table name or poll interval does not reset what
    the component holds: the four cells other than the refresh flag keep
    their values.  So if the list was on screen, the same rows, the same
    time of last update and the same banner are shown right after the
    change, under the new table name and with the indicator on, until a
    select settles. *)
Theorem X11_parameter_change_keeps_rows : forall w q,
    mounted w = true -> props_eqb (props w) q = false ->
    view (rerender q w) = fetchData_begin (view w) /\
    forall t r u b items,
      screen w = Some (ListView t r u b items) ->
      screen (rerender q w) = Some (ListView (tableName q) true u b items).
Proof.
  intros w q M Q.
  assert (V : view (rerender q w) = fetchData_begin (view w)).
  { unfold rerender; rewrite Q.
    unfold effect, fetchData, update_view, run_cleanup.
    destruct (cleanup w); simpl; rewrite M;
      destruct (wants_timer (pollInterval q)); reflexivity. }
  assert (P : props (rerender q w) = q).
  { unfold rerender; rewrite Q.
    destruct (effect_frame (with_props q (run_cleanup w)))
      as (_ & B & _).
    rewrite B; reflexivity. }
  split; [exact V|].
  intros t r u b items S1.
  destruct (screen_list_inv w S1)
    as (L & _ & _ & Eu & Eb & row & rows & D & Ei).
  unfold screen, render. rewrite V, P; simpl. rewrite L, D.
  unfold list_view; simpl. subst.
  destruct (Js.truthy_string (error (view w))); reflexivity.
Qed.

End Viewer.

Arguments Thrown {Value}.
Arguments Tick {Value}.
Arguments Unmount {Value}.
Arguments Rerender {Value}.
Arguments mount {Value}.
Arguments initial_state {Value}.
Arguments boot {Value}.
Arguments Panel {Value}.
Arguments NotLoaded {Value}.
Arguments LoadingView {Value}.
Arguments ErrorPanel {Value}.
Arguments EmptyView {Value}.
Arguments wait {Value}.
Arguments history_silent_failure {Value}.
Arguments history_unmounted_early {Value}.

(* ================================================================= *)
(** ** Field labels *)

Lemma prefix_empty : forall s, String.prefix EmptyString s = true.
Proof. destruct s; reflexivity. Qed.

Lemma replace_every_absent : forall a b s,
    Js.count_char a s = O -> Js.replace_every a b s = s.
Proof.
  intros a b s; induction s as [|c s IH]; simpl; intros H; [reflexivity|].
  destruct (Ascii.eqb c a); [discriminate|].
  rewrite IH by exact H. reflexivity.
Qed.

(** On a key with at most one underscore, replacing the first underscore
    and replacing every underscore give the same label. *)
Lemma replace_first_is_every : forall s,
    (Js.count_char "_" s <= 1)%nat ->
    Js.replace "_" " " s = Js.replace_every "_" " " s.
Proof.
  induction s as [|c s IH]; intros H; [reflexivity|].
  cbn [Js.replace Js.replace_every Js.count_char String.prefix] in *.
  destruct (ascii_dec "_" c) as [E|E].
  - subst c. rewrite prefix_empty. simpl in *.
    rewrite replace_every_absent by lia. reflexivity.
  - assert (N : Ascii.eqb c "_" = false)
      by (apply Ascii.eqb_neq; congruence).
    rewrite N in *. rewrite IH by (simpl in H; exact H). reflexivity.
Qed.

(** C7. The value of a field is shown as [JSON.stringify] gives it and
    the key itself is left alone, but the label has only its first
    underscore turned into a space: for the column [created_at_utc] the
    label reads "created at_utc", not "created at utc". *)
Theorem C7_label_keeps_later_underscores :
  forall (Value : Type) (stringify : Value -> string) (v : Value),
    field_label (render_field stringify ("created_at_utc", v))
      = "created at_utc" /\
    Js.replace_every "_" " " "created_at_utc" = "created at utc" /\
    field_label (render_field stringify ("created_at_utc", v))
      <> Js.replace_every "_" " " "created_at_utc" /\
    field_key (render_field stringify ("created_at_utc", v))
      = "created_at_utc" /\
    field_value (render_field stringify ("created_at_utc", v))
      = stringify v.
Proof.
  intros Value stringify v.
  repeat split; try reflexivity.
  vm_compute; discriminate.
Qed.

(* ================================================================= *)
(** ** The properties at work on the sample histories *)

(** C1 on the history in which the first select returns one row and the
    next poll fails: the snapshot is still that row, dated time 0. *)
Lemma C1_witness :
  run (history_stale [Sample.ticket_a]) (mount app_props)
    = Some (after app_props (history_stale [Sample.ticket_a])) /\
  mounted (after app_props (history_stale [Sample.ticket_a])) = true /\
  data (view (after app_props (history_stale [Sample.ticket_a])))
    = Some [Sample.ticket_a] /\
  lastUpdated (view (after app_props (history_stale [Sample.ticket_a])))
    = Some 0.
Proof.
  assert (H : run (history_stale [Sample.ticket_a]) (mount app_props)
              = Some (after app_props (history_stale [Sample.ticket_a])))
    by (vm_compute; reflexivity).
  assert (M : mounted (after app_props (history_stale [Sample.ticket_a]))
              = true)
    by (vm_compute; reflexivity).
  split; [exact H|]. split; [exact M|].
  destruct (C1_snapshot_is_latest_success app_props _ H M) as (A & B & _).
  split; [rewrite A | rewrite B]; vm_compute; reflexivity.
Defined.

(** The claim C2 as it was worded: the error cell receives the failure's
    own message.  It fails for a failure whose message is the empty
    string, where the fixed text is stored instead. *)
Lemma C2_counterexample :
  ~ (forall (w : World string) i a err m w',
        mounted w = true -> step (Settle i a) w = Some w' ->
        failure_of a = Some err -> message err = Some m ->
        error (view w') = Some m).
Proof.
  intros H.
  specialize (H (mount app_props) 0%nat
                (Thrown (mkError (Some EmptyString)))
                (mkError (Some EmptyString)) EmptyString
                (after app_props history_silent_failure)
                eq_refl eq_refl eq_refl eq_refl).
  vm_compute in H. discriminate H.
Qed.

(** C2 on a first select that fails with "Failed to fetch". *)
Lemma C2_witness :
  mounted (mount (Value:=string) app_props) = true /\
  step (Settle 0 (Thrown (mkError (Some "Failed to fetch"))))
       (mount (Value:=string) app_props)
    = Some (after app_props
              [Settle 0 (Thrown (mkError (Some "Failed to fetch")))]) /\
  error (view (after (Value:=string) app_props
                 [Settle 0 (Thrown (mkError (Some "Failed to fetch")))]))
    = Some "Failed to fetch" /\
  data (view (after (Value:=string) app_props
                [Settle 0 (Thrown (mkError (Some "Failed to fetch")))]))
    = data (view (mount (Value:=string) app_props)).
Proof.
  assert (M : mounted (mount (Value:=string) app_props) = true)
    by reflexivity.
  assert (S1 : step (Settle 0 (Thrown (mkError (Some "Failed to fetch"))))
                 (mount (Value:=string) app_props)
               = Some (after app_props
                         [Settle 0
                            (Thrown (mkError (Some "Failed to fetch")))]))
    by (vm_compute; reflexivity).
  split; [exact M|]. split; [exact S1|].
  destruct (C2_failed_fetch_keeps_snapshot _ _ _ M S1) as (_ & _ & _ & F).
  destruct (F (mkError (Some "Failed to fetch")) eq_refl)
    as (D & _ & E & _).
  split; [|exact D].
  apply E; [reflexivity | discriminate].
Defined.

(** C3 on the history whose last poll failed. *)
Lemma C3_witness :
  run (history_stale [Sample.ticket_a]) (mount app_props)
    = Some (after app_props (history_stale [Sample.ticket_a])) /\
  mounted (after app_props (history_stale [Sample.ticket_a])) = true /\
  error (view (after app_props (history_stale [Sample.ticket_a]))) <> None.
Proof.
  assert (H : run (history_stale [Sample.ticket_a]) (mount app_props)
              = Some (after app_props (history_stale [Sample.ticket_a])))
    by (vm_compute; reflexivity).
  assert (M : mounted (after app_props (history_stale [Sample.ticket_a]))
              = true)
    by (vm_compute; reflexivity).
  split; [exact H|]. split; [exact M|].
  destruct (C3_error_iff_last_fetch_failed app_props _ H M) as (A & _).
  apply A. left. vm_compute. reflexivity.
Defined.

(** C4 three seconds after the mount, with the first select still in
    flight. *)
Lemma C4_witness :
  run (wait 3000) (mount (Value:=string) app_props)
    = Some (after app_props (wait 3000)) /\
  mounted (after (Value:=string) app_props (wait 3000)) = true /\
  screen Sample.stringify (after app_props (wait 3000))
    = Some (LoadingView "tickets").
Proof.
  assert (H : run (wait 3000) (mount (Value:=string) app_props)
              = Some (after app_props (wait 3000)))
    by (vm_compute; reflexivity).
  assert (M : mounted (after (Value:=string) app_props (wait 3000)) = true)
    by (vm_compute; reflexivity).
  split; [exact H|]. split; [exact M|].
  destruct (C4_initial_loading_iff_nothing_settled Sample.stringify
              app_props _ H M) as (_ & A).
  rewrite A; [|vm_compute; reflexivity].
  vm_compute. reflexivity.
Defined.

(** The claim C5 as it was worded: the list shows the refresh indicator
    exactly when a select is in flight.  It fails when two polls overlap:
    after the earlier one settles the indicator is off although the later
    one is still in flight. *)
Lemma C5_counterexample :
  ~ (forall p evs (w : World string),
        run evs (mount p) = Some w -> mounted w = true ->
        (1 <= settled_count evs)%nat ->
        forall table flag updated banner items,
          screen Sample.stringify w
            = Some (ListView table flag updated banner items) ->
          (flag = true <-> pending w <> [])).
Proof.
  intros H.
  assert (R : run (history_overlap [Sample.ticket_a]) (mount app_props)
              = Some (after app_props (history_overlap [Sample.ticket_a])))
    by (vm_compute; reflexivity).
  assert (V : screen Sample.stringify
                (after app_props (history_overlap [Sample.ticket_a]))
              = Some (ListView "tickets" false (Some 10000) None
                        [render_item Sample.stringify Sample.ticket_a]))
    by (vm_compute; reflexivity).
  destruct (H _ _ _ R ltac:(vm_compute; reflexivity)
              ltac:(vm_compute; lia) _ _ _ _ _ V) as (_ & B).
  assert (X : false = true) by (apply B; vm_compute; discriminate).
  discriminate X.
Qed.

(** C5 on the history in which the first select returns one row and the
    next poll fails: the row stays on screen under the warning banner. *)
Lemma C5_witness :
  run (history_stale [Sample.ticket_a]) (mount app_props)
    = Some (after app_props (history_stale [Sample.ticket_a])) /\
  mounted (after app_props (history_stale [Sample.ticket_a])) = true /\
  (1 <= settled_count (history_stale [Sample.ticket_a]))%nat /\
  screen Sample.stringify
    (after app_props (history_stale [Sample.ticket_a]))
    = Some (ListView "tickets" false (Some 0) (Some "Failed to fetch")
              [render_item Sample.stringify Sample.ticket_a]).
Proof.
  assert (H : run (history_stale [Sample.ticket_a]) (mount app_props)
              = Some (after app_props (history_stale [Sample.ticket_a])))
    by (vm_compute; reflexivity).
  assert (M : mounted (after app_props (history_stale [Sample.ticket_a]))
              = true)
    by (vm_compute; reflexivity).
  assert (N : (1 <= settled_count (history_stale [Sample.ticket_a]))%nat)
    by (vm_compute; lia).
  split; [exact H|]. split; [exact M|]. split; [exact N|].
  destruct (C5_render_selection Sample.stringify app_props _ H M N)
    as (A & _).
  rewrite A. vm_compute. reflexivity.
Defined.



(** The claim C8 as it was worded: every positive poll interval arms a
    timer of that period.  It fails for an interval of 2147483648
    milliseconds, one more than the largest delay a timer honours: the
    timer then does not wait that long, and fifty milliseconds after the
    mount more than the one select of the schedule has been issued. *)
Lemma C8_counterexample :
  ~ (forall p evs (w : World string),
        0 < pollInterval p ->
        same_params p evs = true -> run evs (mount p) = Some w ->
        mounted w = true ->
        issued w = poll_times (tableName p) (pollInterval p) (clock w)).
Proof.
  intros H.
  assert (R : run (wait 50) (mount (mkProps "tickets" 2147483648))
              = Some (after (Value:=string)
                        (mkProps "tickets" 2147483648) (wait 50)))
    by (vm_compute; reflexivity).
  specialize (H (mkProps "tickets" 2147483648) (wait 50) _
                ltac:(reflexivity) ltac:(vm_compute; reflexivity) R
                ltac:(vm_compute; reflexivity)).
  apply (f_equal (@List.length Request)) in H.
  vm_compute in H. discriminate H.
Qed.

(** C8 with the props [App] passes, twelve and a half seconds after the
    mount, and with a poll interval of zero. *)
Lemma C8_witness :
  0 < pollInterval app_props <= 2147483647 /\
  run (wait 12500) (mount (Value:=string) app_props)
    = Some (after app_props (wait 12500)) /\
  issued (after (Value:=string) app_props (wait 12500))
    = [mkRequest "tickets" 0; mkRequest "tickets" 5000;
       mkRequest "tickets" 10000] /\
  pollInterval (mkProps "tickets" 0) <= 0 /\
  issued (after (Value:=string) (mkProps "tickets" 0) (wait 12500))
    = [mkRequest "tickets" 0].
Proof.
  assert (P1 : 0 < pollInterval app_props <= 2147483647)
    by (vm_compute; split; [reflexivity | discriminate]).
  assert (P0 : pollInterval (mkProps "tickets" 0) <= 0)
    by (vm_compute; discriminate).
  assert (H : run (wait 12500) (mount (Value:=string) app_props)
              = Some (after app_props (wait 12500)))
    by (vm_compute; reflexivity).
  assert (H0 : run (wait 12500)
                 (mount (Value:=string) (mkProps "tickets" 0))
               = Some (after (mkProps "tickets" 0) (wait 12500)))
    by (vm_compute; reflexivity).
  assert (SP : same_params (Value:=string) app_props (wait 12500) = true)
    by (vm_compute; reflexivity).
  assert (SP0 : same_params (Value:=string) (mkProps "tickets" 0)
                  (wait 12500) = true)
    by (vm_compute; reflexivity).
  assert (M : mounted (after (Value:=string) app_props (wait 12500)) = true)
    by (vm_compute; reflexivity).
  split; [exact P1|]. split; [exact H|].
  destruct (C8_timer_for_interval_in_range string app_props)
    as (_ & _ & A).
  destruct (A P1) as (_ & A').
  split.
  - rewrite (A' _ _ SP H M). vm_compute. reflexivity.
  - split; [exact P0|].
    destruct (C8_timer_for_interval_in_range string
                (mkProps "tickets" 0)) as (_ & B & _).
    destruct (B P0) as (_ & B').
    apply (B' _ _ SP0 H0).
Defined.

(** C9 with an interval of five seconds and an unmount after one second:
    nine seconds later still only the select made at the mount. *)
Lemma C9_witness :
  run history_unmounted_early (mount (Value:=string) app_props)
    = Some (after app_props history_unmounted_early) /\
  mounted (after (Value:=string) app_props history_unmounted_early)
    = false /\
  run (wait 9000) (after (Value:=string) app_props history_unmounted_early)
    = Some (after app_props (history_unmounted_early ++ wait 9000)) /\
  issued (after (Value:=string) app_props
            (history_unmounted_early ++ wait 9000))
    = [mkRequest "tickets" 0].
Proof.
  assert (H : run history_unmounted_early
                (mount (Value:=string) app_props)
              = Some (after app_props history_unmounted_early))
    by (vm_compute; reflexivity).
  assert (M : mounted (after (Value:=string) app_props
                         history_unmounted_early) = false)
    by (vm_compute; reflexivity).
  assert (H' : run (wait 9000)
                 (after (Value:=string) app_props history_unmounted_early)
               = Some (after app_props
                         (history_unmounted_early ++ wait 9000)))
    by (vm_compute; reflexivity).
  split; [exact H|]. split; [exact M|]. split; [exact H'|].
  destruct (C9_cleanup_cancels_timer app_props _ H) as (_ & _ & A).
  destruct (A M) as (_ & A').
  rewrite (A' _ _ H'). vm_compute. reflexivity.
Defined.

(** C10 on a first select that succeeds with a null payload. *)
Lemma C10_witness :
  run [] (mount (Value:=string) app_props) = Some (mount app_props) /\
  mounted (mount (Value:=string) app_props) = true /\
  step (Settle 0 (succeeded None)) (mount (Value:=string) app_props)
    = Some (after app_props [Settle 0 (succeeded None)]) /\
  screen Sample.stringify
    (after app_props [Settle 0 (succeeded None)])
    = Some (EmptyView "tickets").
Proof.
  assert (H : run [] (mount (Value:=string) app_props)
              = Some (mount app_props)) by reflexivity.
  assert (M : mounted (mount (Value:=string) app_props) = true)
    by reflexivity.
  assert (S1 : step (Settle 0 (succeeded None))
                 (mount (Value:=string) app_props)
               = Some (after app_props [Settle 0 (succeeded None)]))
    by (vm_compute; reflexivity).
  split; [exact H|]. split; [exact M|]. split; [exact S1|].
  destruct (C10_snapshot_is_always_a_list Sample.stringify app_props _ H)
    as (_ & _ & _ & A).
  destruct (A _ _ M S1) as (_ & B).
  rewrite B. vm_compute. reflexivity.
Defined.

(* ================================================================= *)
(** ** Further worked examples *)

(** An empty table: the empty-state message and no list. *)
Example empty_table_shows_message :
  screen Sample.stringify
    (after app_props [Settle 0 (succeeded (Some []))])
  = Some (EmptyView "tickets").
Proof. vm_compute. reflexivity. Qed.

(** A failure before any data has arrived: the blocking panel. *)
Example first_failure_shows_panel :
  screen Sample.stringify
    (after app_props
       [Settle 0 (Thrown (mkError (Some "permission denied")))])
  = Some (ErrorPanel "tickets" "permission denied").
Proof. vm_compute. reflexivity. Qed.

(** A failure that brings no message of its own. *)
Example failure_without_message :
  screen Sample.stringify
    (after app_props [Settle 0 (Thrown (mkError None))])
  = Some (ErrorPanel "tickets" "An unknown error occurred during refresh.").
Proof. vm_compute. reflexivity. Qed.

(** A response that carries both rows and an error counts as a failure:
    the rows are not stored. *)
Example error_wins_over_rows :
  data (view (after app_props
                [Settle 0 (Fulfilled
                             (mkResponse (Some [Sample.ticket_a])
                                (Some (mkError (Some "timeout")))))]))
  = Some [].
Proof. vm_compute. reflexivity. Qed.

(** A render with a new poll interval: the old interval is gone, one new
    interval is armed, and a select is made at once. *)
Example rerender_swaps_timer :
  intervals (after (Value:=string) app_props
               (wait 1000 ++ [Rerender (mkProps "tickets" 2000)]))
    = [mkInterval 2 "tickets" 2000 3000] /\
  issued (after (Value:=string) app_props
            (wait 1000 ++ [Rerender (mkProps "tickets" 2000)]))
    = [mkRequest "tickets" 0; mkRequest "tickets" 1000].
Proof. split; vm_compute; reflexivity. Qed.

(** The row with a three-word column name as it appears on screen. *)
Example three_word_column :
  map field_label
    (item_fields (render_item Sample.stringify Sample.ticket_b))
  = ["uuid"; "created at_utc"].
Proof. vm_compute. reflexivity. Qed.

(** The messages on screen while the row of [Sample.ticket_a] is shown
    after a failed refresh, and over an empty table. *)
Example stale_row_messages :
  option_map (@messages string)
    (screen Sample.stringify
       (after app_props (history_stale [Sample.ticket_a])))
  = Some ["tickets Records";
          "Failed to refresh data. Showing last known records. Error: Failed to fetch";
          ("uuid: " ++ Sample.stringify "a")%string;
          ("status: " ++ Sample.stringify "open")%string] /\
  option_map (@messages string)
    (screen Sample.stringify
       (after app_props [Settle 0 (succeeded (Some []))]))
  = Some ["No records found in the 'tickets' table."].
Proof. split; vm_compute; reflexivity. Qed.

(* ================================================================= *)
(** ** More on field labels *)

Lemma count_replace_every : forall s,
    Js.count_char "_" (Js.replace_every "_" " " s) = O.
Proof.
  induction s as [|c s IH]; simpl; [reflexivity|].
  destruct (Ascii.eqb c "_") eqn:E; simpl; [exact IH|].
  rewrite E; exact IH.
Qed.

Lemma replace_first_shape : forall s,
    String.length (Js.replace "_" " " s) = String.length s /\
    Js.count_char "_" (Js.replace "_" " " s)
      = Nat.pred (Js.count_char "_" s).
Proof.
  induction s as [|c s (IHl & IHc)]; [split; reflexivity|].
  cbn [Js.replace Js.count_char String.prefix].
  destruct (ascii_dec "_" c) as [E|E].
  - subst c. rewrite prefix_empty. simpl. auto.
  - assert (N : Ascii.eqb c "_" = false)
      by (apply Ascii.eqb_neq; congruence).
    rewrite N. cbn [String.length Js.count_char]. rewrite N, IHl, IHc.
    auto.
Qed.

(** X1. The label the code computes for a key equals the key with every
    underscore turned into a space exactly when the key has at most one
    underscore. *)
Theorem X1_label_right_iff_at_most_one_underscore : forall key,
    Js.replace "_" " " key = Js.replace_every "_" " " key <->
    (Js.count_char "_" key <= 1)%nat.
Proof.
  intros key; split.
  - intros E.
    destruct (replace_first_shape key) as (_ & C).
    rewrite E, count_replace_every in C. lia.
  - apply replace_first_is_every.
Qed.

(** X2. The label always has the length of the key and exactly one
    underscore fewer (none fewer when the key has none, in which case the
    label is the key itself). *)
Theorem X2_label_loses_one_underscore : forall key,
    String.length (Js.replace "_" " " key) = String.length key /\
    Js.count_char "_" (Js.replace "_" " " key)
      = Nat.pred (Js.count_char "_" key) /\
    (Js.count_char "_" key = O -> Js.replace "_" " " key = key).
Proof.
  intros key. destruct (replace_first_shape key) as (L & C).
  split; [exact L|]. split; [exact C|].
  intros Z. rewrite replace_first_is_every by lia.
  apply replace_every_absent. exact Z.
Qed.

(** X2 on a key without underscores. *)
Lemma X2_witness :
  Js.count_char "_" "status" = O /\ Js.replace "_" " " "status" = "status".
Proof.
  assert (Z : Js.count_char "_" "status" = O) by reflexivity.
  split; [exact Z|].
  destruct (X2_label_loses_one_underscore "status") as (_ & _ & A).
  exact (A Z).
Defined.

(* ================================================================= *)
(** ** The further properties at work *)

(** X3 five seconds after a first successful select: the poll just
    made is in flight and the flag is on. *)
Lemma X3_witness :
  run ([Settle 0 (succeeded (Some [Sample.ticket_a]))] ++ wait 5000)
      (mount app_props)
    = Some (after app_props
              ([Settle 0 (succeeded (Some [Sample.ticket_a]))]
                 ++ wait 5000)) /\
  mounted (after app_props
             ([Settle 0 (succeeded (Some [Sample.ticket_a]))]
                ++ wait 5000)) = true /\
  isRefreshing (view (after app_props
                        ([Settle 0 (succeeded (Some [Sample.ticket_a]))]
                           ++ wait 5000))) = true /\
  pending (after app_props
             ([Settle 0 (succeeded (Some [Sample.ticket_a]))]
                ++ wait 5000)) <> [].
Proof.
  assert (H : run ([Settle 0 (succeeded (Some [Sample.ticket_a]))]
                     ++ wait 5000) (mount app_props)
              = Some (after app_props
                        ([Settle 0 (succeeded (Some [Sample.ticket_a]))]
                           ++ wait 5000)))
    by (vm_compute; reflexivity).
  assert (M : mounted (after app_props
                         ([Settle 0 (succeeded (Some [Sample.ticket_a]))]
                            ++ wait 5000)) = true)
    by (vm_compute; reflexivity).
  assert (F : isRefreshing
                (view (after app_props
                         ([Settle 0 (succeeded (Some [Sample.ticket_a]))]
                            ++ wait 5000))) = true)
    by (vm_compute; reflexivity).
  split; [exact H|]. split; [exact M|]. split; [exact F|].
  exact (X3_indicator_needs_a_select_in_flight app_props _ H M F).
Defined.

(** X4 on the poll that fails while the row of [Sample.ticket_a] is on
    screen. *)
Lemma X4_witness :
  mounted (after app_props
             ([Settle 0 (succeeded (Some [Sample.ticket_a]))]
                ++ wait 5000)) = true /\
  step (Settle 0 (Thrown (mkError (Some "Failed to fetch"))))
       (after app_props
          ([Settle 0 (succeeded (Some [Sample.ticket_a]))] ++ wait 5000))
    = Some (after app_props (history_stale [Sample.ticket_a])) /\
  screen Sample.stringify
    (after app_props
       ([Settle 0 (succeeded (Some [Sample.ticket_a]))] ++ wait 5000))
    = Some (ListView "tickets" true (Some 0) None
              [render_item Sample.stringify Sample.ticket_a]) /\
  screen Sample.stringify
    (after app_props (history_stale [Sample.ticket_a]))
    = Some (ListView "tickets" false (Some 0) (Some "Failed to fetch")
              [render_item Sample.stringify Sample.ticket_a]).
Proof.
  assert (M : mounted (after app_props
                         ([Settle 0 (succeeded (Some [Sample.ticket_a]))]
                            ++ wait 5000)) = true)
    by (vm_compute; reflexivity).
  assert (S1 : step (Settle 0 (Thrown (mkError (Some "Failed to fetch"))))
                 (after app_props
                    ([Settle 0 (succeeded (Some [Sample.ticket_a]))]
                       ++ wait 5000))
               = Some (after app_props (history_stale [Sample.ticket_a])))
    by (vm_compute; reflexivity).
  assert (V : screen Sample.stringify
                (after app_props
                   ([Settle 0 (succeeded (Some [Sample.ticket_a]))]
                      ++ wait 5000))
              = Some (ListView "tickets" true (Some 0) None
                        [render_item Sample.stringify Sample.ticket_a]))
    by (vm_compute; reflexivity).
  split; [exact M|]. split; [exact S1|]. split; [exact V|].
  exact (@X4_failure_keeps_rows_on_screen string Sample.stringify
           _ _ _ (mkError (Some "Failed to fetch")) _ _ _ _ _ _
           M S1 eq_refl V).
Defined.

(** X5 on a first select that fails. *)
Lemma X5_witness :
  mounted (mount (Value:=string) app_props) = true /\
  step (Settle 0 (Thrown (mkError (Some "Failed to fetch"))))
       (mount (Value:=string) app_props)
    = Some (after app_props
              [Settle 0 (Thrown (mkError (Some "Failed to fetch")))]) /\
  data (view (mount (Value:=string) app_props)) = Some [] /\
  screen Sample.stringify
    (after app_props
       [Settle 0 (Thrown (mkError (Some "Failed to fetch")))])
    = Some (ErrorPanel "tickets" "Failed to fetch").
Proof.
  assert (M : mounted (mount (Value:=string) app_props) = true)
    by reflexivity.
  assert (S1 : step (Settle 0 (Thrown (mkError (Some "Failed to fetch"))))
                 (mount (Value:=string) app_props)
               = Some (after app_props
                         [Settle 0
                            (Thrown (mkError (Some "Failed to fetch")))]))
    by (vm_compute; reflexivity).
  assert (D : data (view (mount (Value:=string) app_props)) = Some [])
    by reflexivity.
  split; [exact M|]. split; [exact S1|]. split; [exact D|].
  apply (@X5_failure_without_rows_blocks string Sample.stringify
           (mount app_props) 0%nat
           (Thrown (mkError (Some "Failed to fetch")))
           (mkError (Some "Failed to fetch")) _ M S1 eq_refl D).
Defined.

(** X6 on a first select that returns the row of [Sample.ticket_a]. *)
Lemma X6_witness :
  mounted (mount (Value:=string) app_props) = true /\
  step (Settle 0 (succeeded (Some [Sample.ticket_a]))) (mount app_props)
    = Some (after app_props
              [Settle 0 (succeeded (Some [Sample.ticket_a]))]) /\
  screen Sample.stringify
    (after app_props [Settle 0 (succeeded (Some [Sample.ticket_a]))])
    = Some (ListView "tickets" false (Some 0) None
              [render_item Sample.stringify Sample.ticket_a]).
Proof.
  assert (M : mounted (mount (Value:=string) app_props) = true)
    by reflexivity.
  assert (S1 : step (Settle 0 (succeeded (Some [Sample.ticket_a])))
                 (mount app_props)
               = Some (after app_props
                         [Settle 0 (succeeded (Some [Sample.ticket_a]))]))
    by (vm_compute; reflexivity).
  split; [exact M|]. split; [exact S1|].
  apply (@X6_success_decides_the_screen string Sample.stringify
           (mount app_props) 0%nat (Some [Sample.ticket_a]) _ M S1).
Defined.

(** X7 after a failure whose message is empty. *)
Lemma X7_witness :
  run history_silent_failure (mount (Value:=string) app_props)
    = Some (after app_props history_silent_failure) /\
  error (view (after (Value:=string) app_props history_silent_failure))
    <> Some EmptyString.
Proof.
  assert (H : run history_silent_failure (mount (Value:=string) app_props)
              = Some (after app_props history_silent_failure))
    by (vm_compute; reflexivity).
  split; [exact H|].
  exact (proj1 (X7_stored_error_is_never_empty app_props _ H)).
Defined.

(** X8 on the history in which the first select returns one row and the
    next poll fails. *)
Lemma X8_witness :
  run (history_stale [Sample.ticket_a]) (mount app_props)
    = Some (after app_props (history_stale [Sample.ticket_a])) /\
  mounted (after app_props (history_stale [Sample.ticket_a])) = true /\
  screen Sample.stringify
    (after app_props (history_stale [Sample.ticket_a]))
    = Some (ListView "tickets" false (Some 0) (Some "Failed to fetch")
              [render_item Sample.stringify Sample.ticket_a]) /\
  exists time,
    Some 0 = Some time /\
    0 <= time <= clock (after app_props (history_stale [Sample.ticket_a])).
Proof.
  assert (H : run (history_stale [Sample.ticket_a]) (mount app_props)
              = Some (after app_props (history_stale [Sample.ticket_a])))
    by (vm_compute; reflexivity).
  assert (M : mounted (after app_props (history_stale [Sample.ticket_a]))
              = true)
    by (vm_compute; reflexivity).
  assert (V : screen Sample.stringify
                (after app_props (history_stale [Sample.ticket_a]))
              = Some (ListView "tickets" false (Some 0)
                        (Some "Failed to fetch")
                        [render_item Sample.stringify Sample.ticket_a]))
    by (vm_compute; reflexivity).
  split; [exact H|]. split; [exact M|]. split; [exact V|].
  exact (X8_list_is_always_dated Sample.stringify app_props _ H M V).
Defined.

(** X9 after the poll interval was changed to two seconds, one second
    after the mount. *)
Lemma X9_witness :
  run (wait 1000 ++ [Rerender (mkProps "tickets" 2000)])
      (mount (Value:=string) app_props)
    = Some (after app_props
              (wait 1000 ++ [Rerender (mkProps "tickets" 2000)])) /\
  mounted (after (Value:=string) app_props
             (wait 1000 ++ [Rerender (mkProps "tickets" 2000)])) = true /\
  0 < pollInterval
        (props (after (Value:=string) app_props
                  (wait 1000 ++ [Rerender (mkProps "tickets" 2000)]))) /\
  intervals (after (Value:=string) app_props
               (wait 1000 ++ [Rerender (mkProps "tickets" 2000)]))
    = [mkInterval 2 "tickets" 2000 3000].
Proof.
  assert (H : run (wait 1000 ++ [Rerender (mkProps "tickets" 2000)])
                (mount (Value:=string) app_props)
              = Some (after app_props
                        (wait 1000 ++ [Rerender (mkProps "tickets" 2000)])))
    by (vm_compute; reflexivity).
  assert (M : mounted (after (Value:=string) app_props
                         (wait 1000 ++ [Rerender (mkProps "tickets" 2000)]))
              = true)
    by (vm_compute; reflexivity).
  assert (P : 0 < pollInterval
                    (props (after (Value:=string) app_props
                              (wait 1000
                                 ++ [Rerender (mkProps "tickets" 2000)]))))
    by (vm_compute; reflexivity).
  split; [exact H|]. split; [exact M|]. split; [exact P|].
  destruct (X9_timer_follows_current_props app_props _ H M) as (A & _).
  destruct (A P) as (id & period & due & I & _ & _).
  vm_compute. reflexivity.
Defined.

(** X10 when the poll interval is changed to two seconds one second
    after the mount: four and a half seconds later the selects are the
    one made at the mount and those at 1000, 3000 and 5000. *)
Lemma X10_witness :
  run (wait 1000) (mount (Value:=string) app_props)
    = Some (after app_props (wait 1000)) /\
  mounted (after (Value:=string) app_props (wait 1000)) = true /\
  props_eqb (props (after (Value:=string) app_props (wait 1000)))
    (mkProps "tickets" 2000) = false /\
  same_params (Value:=string) (mkProps "tickets" 2000) (wait 4500)
    = true /\
  0 < pollInterval (mkProps "tickets" 2000) <= 2147483647 /\
  run (Rerender (mkProps "tickets" 2000) :: wait 4500)
      (after (Value:=string) app_props (wait 1000))
    = Some (after app_props
              (wait 1000 ++ Rerender (mkProps "tickets" 2000)
                 :: wait 4500)) /\
  issued (after (Value:=string) app_props
            (wait 1000 ++ Rerender (mkProps "tickets" 2000) :: wait 4500))
    = [mkRequest "tickets" 0; mkRequest "tickets" 1000;
       mkRequest "tickets" 3000; mkRequest "tickets" 5000].
Proof.
  assert (H : run (wait 1000) (mount (Value:=string) app_props)
              = Some (after app_props (wait 1000)))
    by (vm_compute; reflexivity).
  assert (M : mounted (after (Value:=string) app_props (wait 1000)) = true)
    by (vm_compute; reflexivity).
  assert (Q : props_eqb
                (props (after (Value:=string) app_props (wait 1000)))
                (mkProps "tickets" 2000) = false)
    by (vm_compute; reflexivity).
  assert (SP : same_params (Value:=string) (mkProps "tickets" 2000)
                 (wait 4500) = true)
    by (vm_compute; reflexivity).
  assert (H' : run (Rerender (mkProps "tickets" 2000) :: wait 4500)
                 (after (Value:=string) app_props (wait 1000))
               = Some (after app_props
                         (wait 1000 ++ Rerender (mkProps "tickets" 2000)
                            :: wait 4500)))
    by (vm_compute; reflexivity).
  assert (P : 0 < pollInterval (mkProps "tickets" 2000) <= 2147483647)
    by (vm_compute; split; [reflexivity | discriminate]).
  split; [exact H|]. split; [exact M|]. split; [exact Q|].
  split; [exact SP|]. split; [exact P|]. split; [exact H'|].
  destruct (X10_parameter_change_restarts_polling app_props _ _ _
              H M Q SP H') as (_ & A).
  rewrite (A P); vm_compute; reflexivity.
Defined.

(** X11 when the table name is changed while the row of
    [Sample.ticket_a] is on screen. *)
Lemma X11_witness :
  mounted (after app_props
             [Settle 0 (succeeded (Some [Sample.ticket_a]))]) = true /\
  props_eqb
    (props (after app_props
              [Settle 0 (succeeded (Some [Sample.ticket_a]))]))
    (mkProps "archive" 5000) = false /\
  screen Sample.stringify
    (after app_props [Settle 0 (succeeded (Some [Sample.ticket_a]))])
    = Some (ListView "tickets" false (Some 0) None
              [render_item Sample.stringify Sample.ticket_a]) /\
  screen Sample.stringify
    (rerender (mkProps "archive" 5000)
       (after app_props [Settle 0 (succeeded (Some [Sample.ticket_a]))]))
    = Some (ListView "archive" true (Some 0) None
              [render_item Sample.stringify Sample.ticket_a]).
Proof.
  assert (M : mounted (after app_props
                         [Settle 0 (succeeded (Some [Sample.ticket_a]))])
              = true)
    by (vm_compute; reflexivity).
  assert (Q : props_eqb
                (props (after app_props
                          [Settle 0 (succeeded (Some [Sample.ticket_a]))]))
                (mkProps "archive" 5000) = false)
    by (vm_compute; reflexivity).
  assert (V : screen Sample.stringify
                (after app_props
                   [Settle 0 (succeeded (Some [Sample.ticket_a]))])
              = Some (ListView "tickets" false (Some 0) None
                        [render_item Sample.stringify Sample.ticket_a]))
    by (vm_compute; reflexivity).
  split; [exact M|]. split; [exact Q|]. split; [exact V|].
  destruct (@X11_parameter_change_keeps_rows string Sample.stringify
              _ _ M Q) as (_ & A).
  exact (A _ _ _ _ _ V).
Defined.

(** X12 when the table name is changed seven seconds after a first
    select that returned nothing. *)
Lemma X12_witness :
  run ([Settle 0 (succeeded (Some []))]
         ++ (wait 7000 ++ [Rerender (mkProps "archive" 5000)]))
      (mount (Value:=string) app_props)
    = Some (after app_props
              ([Settle 0 (succeeded (Some []))]
                 ++ (wait 7000 ++ [Rerender (mkProps "archive" 5000)]))) /\
  mounted (after (Value:=string) app_props
             ([Settle 0 (succeeded (Some []))]
                ++ (wait 7000 ++ [Rerender (mkProps "archive" 5000)])))
    = true /\
  (1 <= settled_count (Value:=string) [Settle 0 (succeeded (Some []))])%nat /\
  screen Sample.stringify
    (after app_props
       ([Settle 0 (succeeded (Some []))]
          ++ (wait 7000 ++ [Rerender (mkProps "archive" 5000)])))
    <> Some (LoadingView "archive").
Proof.
  assert (H : run ([Settle 0 (succeeded (Some []))]
                     ++ (wait 7000 ++ [Rerender (mkProps "archive" 5000)]))
                (mount (Value:=string) app_props)
              = Some (after app_props
                        ([Settle 0 (succeeded (Some []))]
                           ++ (wait 7000
                                 ++ [Rerender (mkProps "archive" 5000)]))))
    by (vm_compute; reflexivity).
  assert (M : mounted (after (Value:=string) app_props
                         ([Settle 0 (succeeded (Some []))]
                            ++ (wait 7000
                                  ++ [Rerender (mkProps "archive" 5000)])))
              = true)
    by (vm_compute; reflexivity).
  assert (N : (1 <= settled_count (Value:=string)
                      [Settle 0 (succeeded (Some []))])%nat)
    by (vm_compute; lia).
  split; [exact H|]. split; [exact M|]. split; [exact N|].
  exact (@X12_loader_never_returns string Sample.stringify app_props
           _ _ _ "archive" H M N).
Defined.
